(** * Schema inference, row conversion and batched load of the BigQuery demo app

    A shallow embedding of the schema detection route ([detectCSVSchema],
    [parseCSVLine], [inferColumnType], [sanitizeFieldName]; the second
    module held in [src/routes/api/chat/+server.ts]) and of the insert route
    [src/routes/api/data/insert/+server.ts] ([POST], [parseCSV],
    [parseJSON], [convertValue]).  [JSON.parse] and the warehouse client are
    the runtime's and are taken as parameters.

    Strings.  A JavaScript string is a sequence of UTF-16 code units.  The
    embedding works on [string], a sequence of 8-bit characters, read as the
    code units U+0000..U+00FF (Latin-1): [isWhiteSpace] and [toLowerChar]
    are the restrictions of [String.prototype.trim]'s white space set and of
    [String.prototype.toLowerCase] to that range.  The regular expressions of
    the source have no [u] or [i] flag and only mention ASCII classes, so
    they act on a code unit at a time exactly as written here. *)

From Stdlib Require Import List String Ascii Bool Arith ZArith Lia.
From Stdlib Require Import DecimalString DecimalPos Permutation.
Import ListNotations.
Open Scope string_scope.
Open Scope bool_scope.

(** ** Code units and the string primitives the source calls *)

Module JS.

Definition code (c : ascii) : N := N_of_ascii c.

Definition inRange (lo hi : N) (c : ascii) : bool :=
  (N.leb lo (code c)) && (N.leb (code c) hi).

(** [\d] *)
Definition isDigit (c : ascii) : bool := inRange 48 57 c.
(** [[a-z]] and [[A-Z]] *)
Definition isLower (c : ascii) : bool := inRange 97 122 c.
Definition isUpper (c : ascii) : bool := inRange 65 90 c.
Definition isUnderscore (c : ascii) : bool := N.eqb (code c) 95.
(** [[a-zA-Z0-9_]] *)
Definition isWordChar (c : ascii) : bool :=
  isLower c || isUpper c || isDigit c || isUnderscore c.
(** [[a-zA-Z_]] *)
Definition isIdentStart (c : ascii) : bool :=
  isLower c || isUpper c || isUnderscore c.

(** White space and line terminators stripped by [trim], below U+0100:
    TAB, LF, VT, FF, CR, SPACE and NO-BREAK SPACE. *)
Definition isWhiteSpace (c : ascii) : bool :=
  inRange 9 13 c || N.eqb (code c) 32 || N.eqb (code c) 160.

(** [toLowerCase] on one code unit below U+0100: A-Z and the Latin-1
    capitals U+00C0..U+00DE (the multiplication sign U+00D7 apart) move up
    by 32, everything else is unchanged. *)
Definition toLowerChar (c : ascii) : ascii :=
  if isUpper c then ascii_of_N (code c + 32)
  else if inRange 192 222 c && negb (N.eqb (code c) 215)
       then ascii_of_N (code c + 32)
       else c.

Fixpoint smap (f : ascii -> ascii) (s : string) : string :=
  match s with
  | EmptyString => EmptyString
  | String c t => String (f c) (smap f t)
  end.

Fixpoint sall (p : ascii -> bool) (s : string) : bool :=
  match s with
  | EmptyString => true
  | String c t => p c && sall p t
  end.

Definition isEmpty (s : string) : bool :=
  match s with EmptyString => true | _ => false end.

Fixpoint dropWhile (p : ascii -> bool) (s : string) : string :=
  match s with
  | EmptyString => EmptyString
  | String c t => if p c then dropWhile p t else s
  end.

Fixpoint dropWhileEnd (p : ascii -> bool) (s : string) : string :=
  match s with
  | EmptyString => EmptyString
  | String c t =>
      match dropWhileEnd p t with
      | EmptyString => if p c then EmptyString else String c EmptyString
      | t' => String c t'
      end
  end.

(** [s.trim()] *)
Definition trim (s : string) : string :=
  dropWhileEnd isWhiteSpace (dropWhile isWhiteSpace s).

(** [s.toLowerCase()] *)
Definition toLowerCase (s : string) : string := smap toLowerChar s.

(** [a || b] on strings: the empty string is the only falsy string. *)
Definition orElse (a b : string) : string := if isEmpty a then b else a.

(** [list.includes(s)] *)
Definition includes (l : list string) (s : string) : bool :=
  existsb (String.eqb s) l.

End JS.
Import JS.

(** ** The identifier sanitizer *)

(** [.replace(/[^a-zA-Z0-9_]/g, '_')] *)
Definition replaceNonWord (s : string) : string :=
  smap (fun c => if isWordChar c then c else "_"%char) s.

(** [.replace(/^[^a-zA-Z_]/, '_$&')]: an underscore goes before a first
    character that is neither a letter nor an underscore. *)
Definition prefixUnderscore (s : string) : string :=
  match s with
  | EmptyString => EmptyString
  | String c _ => if isIdentStart c then s else String "_" s
  end.

(** [.replace(/__+/g, '_')]: every maximal run of two or more underscores
    becomes one underscore. *)
Fixpoint collapseUnderscores (s : string) : string :=
  match s with
  | EmptyString => EmptyString
  | String c t =>
      if isUnderscore c
      then match t with
           | String d _ => if isUnderscore d then collapseUnderscores t
                           else String c (collapseUnderscores t)
           | EmptyString => String c EmptyString
           end
      else String c (collapseUnderscores t)
  end.

(** [.replace(/^_+|_+$/g, '')] *)
Definition stripUnderscores (s : string) : string :=
  dropWhileEnd isUnderscore (dropWhile isUnderscore s).

Definition sanitizeFieldName (name : string) : string :=
  orElse
    (stripUnderscores
       (collapseUnderscores
          (prefixUnderscore
             (replaceNonWord
                (toLowerCase
                   (trim name))))))
    "unnamed_field".

(** [/^[a-zA-Z_][a-zA-Z0-9_]*$/.test(s)] *)
Definition isValidIdentifier (s : string) : bool :=
  match s with
  | EmptyString => false
  | String c t => isIdentStart c && sall isWordChar t
  end.

(** ** The regular expressions of the classifier and of [convertValue] *)

Module Re.

(** [\d+] anchored at both ends *)
Definition digits1 (s : string) : bool := negb (isEmpty s) && sall isDigit s.

(** the optional leading [-?] *)
Definition optMinus (s : string) : string :=
  match s with
  | String c t => if Ascii.eqb c "-" then t else s
  | EmptyString => s
  end.

(** [/^-?\d+$/] *)
Definition integer (s : string) : bool := digits1 (optMinus s).

(** [/^-?\d+\.\d+$/]: the run of digits after the sign is not empty and is
    followed by a dot and a second run of digits up to the end. *)
Definition float (s : string) : bool :=
  let t := optMinus s in
  match t with
  | String c _ =>
      isDigit c &&
      match dropWhile isDigit t with
      | String "." r => digits1 r
      | _ => false
      end
  | EmptyString => false
  end.

(** A sequence of one-character classes matched at the start of [s]; the
    rest of [s] is returned. *)
Fixpoint classes (ps : list (ascii -> bool)) (s : string) : option string :=
  match ps with
  | [] => Some s
  | p :: ps' =>
      match s with
      | String c t => if p c then classes ps' t else None
      | EmptyString => None
      end
  end.

Definition chr (a : ascii) (c : ascii) : bool := Ascii.eqb c a.
Definition d := isDigit.

(** [/^\d{4}-\d{2}-\d{2}[T ]\d{2}:\d{2}:\d{2}/] (no [$]: a prefix match) *)
Definition timestamp (s : string) : bool :=
  match classes [d; d; d; d; chr "-"; d; d; chr "-"; d; d;
                 (fun c => chr "T" c || chr " " c);
                 d; d; chr ":"; d; d; chr ":"; d; d] s with
  | Some _ => true
  | None => false
  end.

(** [/^\d{4}-\d{2}-\d{2}$/] *)
Definition dateIso (s : string) : bool :=
  match classes [d; d; d; d; chr "-"; d; d; chr "-"; d; d] s with
  | Some r => isEmpty r
  | None => false
  end.

(** [\d{1,2}] followed by [/]: one digit, and a second one when the next
    character is a digit. *)
Definition digits12slash (s : string) : option string :=
  match s with
  | String a (String "/" r) => if isDigit a then Some r else None
  | String a (String b (String "/" r)) =>
      if isDigit a && isDigit b then Some r else None
  | _ => None
  end.

(** [/^\d{1,2}\/\d{1,2}\/\d{4}$/] *)
Definition dateSlash (s : string) : bool :=
  match digits12slash s with
  | Some r1 =>
      match digits12slash r1 with
      | Some r2 =>
          match classes [d; d; d; d] r2 with
          | Some r => isEmpty r
          | None => false
          end
      | None => false
      end
  | None => false
  end.

End Re.

(** ** Values *)

(** What the routes handle as [any]: the results of [JSON.parse], CSV cells
    and [undefined] for a missing cell or key.  A number is an integer here;
    [String] of a non-integral number goes through the shortest
    round-tripping decimal of a double and is outside the embedding, and
    so is an integer of absolute value [10^21] or more, which [String]
    prints with an exponent. *)
#[local] Set Warnings "-register-all".
Inductive JsValue : Type :=
| JNull
| JUndefined
| JBool (b : bool)
| JNum (z : Z)
| JStr (s : string)
| JArr (elems : list JsValue)
| JObj (props : list (string * JsValue)).

Definition string_of_Z (z : Z) : string := NilZero.string_of_int (Z.to_int z).
Definition string_of_nat (n : nat) : string := string_of_Z (Z.of_nat n).

(** [String(value)], where it returns.  An array is joined with commas,
    [null] and [undefined] elements giving the empty string; an object
    gives ["[object Object]"].  [String] throws a [TypeError] on an object
    that has an own property named [toString] (no parsed value is
    callable), and on an array that holds such an object: these values are
    the ones [stringifies] below refuses, and a statement that gives the
    result of a conversion of objects assumes [stringifies]. *)
Fixpoint String_ (v : JsValue) : string :=
  match v with
  | JNull => "null"
  | JUndefined => "undefined"
  | JBool true => "true"
  | JBool false => "false"
  | JNum z => string_of_Z z
  | JStr s => s
  | JArr elems =>
      let elem x := match x with
                    | JNull | JUndefined => ""
                    | _ => String_ x
                    end in
      (fix join (l : list JsValue) : string :=
         match l with
         | [] => ""
         | [x] => elem x
         | x :: t => elem x ++ "," ++ join t
         end) elems
  | JObj _ => "[object Object]"
  end.

(** A cell read by index or key: [None] is [undefined]. *)
Definition jsOfCell (c : option string) : JsValue :=
  match c with
  | Some s => JStr s
  | None => JUndefined
  end.

(** Thrown [Error]s, carried by their message. *)
Inductive Result (A : Type) : Type :=
| Ok (a : A)
| Err (message : string).
Arguments Ok {A} a.
Arguments Err {A} message.

Definition bind {A B} (r : Result A) (f : A -> Result B) : Result B :=
  match r with
  | Ok a => f a
  | Err m => Err m
  end.

(** [l.map(f)] where [f] may throw: the first throw ends the whole map. *)
Fixpoint mapM {A B} (f : A -> Result B) (l : list A) : Result (list B) :=
  match l with
  | [] => Ok []
  | x :: t => bind (f x) (fun y => bind (mapM f t) (fun ys => Ok (y :: ys)))
  end.

(** [l.slice(a, b)] for [0 <= a]; [b] past the end is clamped. *)
Definition slice {A} (a b : nat) (l : list A) : list A :=
  firstn (b - a) (skipn a l).

(** [l.map((x, index) => f x index)] *)
Fixpoint mapi_from {A B} (i : nat) (f : A -> nat -> B) (l : list A) : list B :=
  match l with
  | [] => []
  | x :: t => f x i :: mapi_from (S i) f t
  end.
Definition mapi {A B} (f : A -> nat -> B) (l : list A) : list B :=
  mapi_from 0 f l.

(** [s.split('\n')]: never empty, [""] splits into [[""]]. *)
Fixpoint splitLines (s : string) : list string :=
  match s with
  | EmptyString => [EmptyString]
  | String c t =>
      if Ascii.eqb c "010"
      then EmptyString :: splitLines t
      else match splitLines t with
           | l :: ls => String c l :: ls
           | [] => [String c EmptyString]
           end
  end.

(** ** The value type classifier *)

Inductive FieldType : Type := STRING | INTEGER | FLOAT | BOOLEAN | TIMESTAMP | DATE.
Inductive FieldMode : Type := REQUIRED | NULLABLE | REPEATED.

Record SchemaField : Type := mkField {
  field_name : string;
  field_type : FieldType;
  field_mode : FieldMode
}.

(** The [typeCounts] object. *)
Record TypeCounts : Type := mkCounts {
  cnt_integer : nat;
  cnt_float : nat;
  cnt_boolean : nat;
  cnt_date : nat;
  cnt_timestamp : nat;
  cnt_string : nat
}.

Definition noCounts : TypeCounts := mkCounts 0 0 0 0 0 0.

Definition booleanWords : list string :=
  ["true"; "false"; "1"; "0"; "yes"; "no"; "y"; "n"].

(** The body of the [values.forEach] callback: at most one counter moves. *)
Definition countValue (typeCounts : TypeCounts) (value : JsValue) : TypeCounts :=
  let strValue := trim (String_ value) in
  let '(mkCounts i f b dt ts st) := typeCounts in
  if isEmpty strValue || String.eqb (toLowerCase strValue) "null" then typeCounts
  else if includes booleanWords (toLowerCase strValue) then mkCounts i f (S b) dt ts st
  else if Re.integer strValue then mkCounts (S i) f b dt ts st
  else if Re.float strValue then mkCounts i (S f) b dt ts st
  else if Re.timestamp strValue then mkCounts i f b dt (S ts) st
  else if Re.dateIso strValue || Re.dateSlash strValue then mkCounts i f b (S dt) ts st
  else mkCounts i f b dt ts (S st).

(** [Object.values(typeCounts).reduce((sum, count) => sum + count, 0)] *)
Definition totalCount (tc : TypeCounts) : nat :=
  0 + cnt_integer tc + cnt_float tc + cnt_boolean tc + cnt_date tc
    + cnt_timestamp tc + cnt_string tc.

(** [count >= total * 0.7].  The source compares in double precision; the
    product [total * 0.7] is the double nearest to a real that is below
    [7 * total / 10] by a relative [2^-54] or so, and an integer [count]
    (an array has fewer than [2^32] elements) is at least that double
    exactly when [10 * count >= 7 * total], which is what is computed
    here. *)
Definition reaches (count total : nat) : bool := (7 * total <=? 10 * count)%nat.

Definition inferColumnType (values : list JsValue) : FieldType :=
  if (List.length values =? 0)%nat then STRING
  else
    let typeCounts := fold_left countValue values noCounts in
    let total := totalCount typeCounts in
    if reaches (cnt_integer typeCounts) total then INTEGER
    else if reaches (cnt_float typeCounts) total then FLOAT
    else if reaches (cnt_boolean typeCounts) total then BOOLEAN
    else if reaches (cnt_timestamp typeCounts) total then TIMESTAMP
    else if reaches (cnt_date typeCounts) total then DATE
    else STRING.

(** ** The delimited-text tokenizer *)

(** The [while (i < line.length)] loop of [parseCSVLine]; [line] is what is
    left from index [i] on.  The escaped-quote branch consumes two
    characters, every other branch one. *)
Fixpoint parseCSVLine_loop (line current : string) (inQuotes : bool)
         (result : list string) : list string :=
  match line with
  | EmptyString => result ++ [trim current]
  | String char rest =>
      if Ascii.eqb char "034" then
        match rest with
        | String next rest' =>
            if inQuotes && Ascii.eqb next "034"
            then parseCSVLine_loop rest' (current ++ String "034" EmptyString) inQuotes result
            else parseCSVLine_loop rest current (negb inQuotes) result
        | EmptyString => parseCSVLine_loop rest current (negb inQuotes) result
        end
      else if Ascii.eqb char "," && negb inQuotes then
        parseCSVLine_loop rest EmptyString inQuotes (result ++ [trim current])
      else
        parseCSVLine_loop rest (current ++ String char EmptyString) inQuotes result
  end.

Definition parseCSVLine (line : string) : list string :=
  parseCSVLine_loop line EmptyString false [].

(** ** Schema inference on CSV text *)

(** [val !== null && val !== undefined && val !== ''] on a cell *)
Definition cellPresent (val : option string) : bool :=
  match val with
  | Some s => negb (isEmpty s)
  | None => false
  end.

(** [sampleRows.map(row => row[index]).filter(...)] *)
Definition columnValuesAt (sampleRows : list (list string)) (index : nat)
  : list (option string) :=
  filter cellPresent (map (fun row => nth_error row index) sampleRows).

Definition detectCSVSchema (csvContent : string) : Result (list SchemaField) :=
  let lines := splitLines (trim csvContent) in
  if (List.length lines <? 2)%nat then Err "CSV must have at least a header and one data row"
  else
    let headers := parseCSVLine (hd EmptyString lines) in
    let sampleRows := map parseCSVLine (slice 1 (Nat.min 11 (List.length lines)) lines) in
    Ok (mapi (fun header index =>
                let columnValues := columnValuesAt sampleRows index in
                let type := inferColumnType (map jsOfCell columnValues) in
                mkField (sanitizeFieldName header) type
                        (if (List.length columnValues =? List.length sampleRows)%nat
                         then REQUIRED else NULLABLE))
             headers).

(** ** Row conversion *)

(** A converted value: [null], a boolean, a number or a string.  The result
    of [parseInt] is kept as the integer that the digits denote: the source
    holds the double nearest to it, which is that integer as long as its
    absolute value is at most [2^53], and a statement that names the number
    returned is made within that bound.  The result of [parseFloat] is kept
    as the decimal text it was read from. *)
Inductive Converted : Type :=
| CNull
| CBool (b : bool)
| CNumber (z : Z)
| CFloat (literal : string)
| CString (s : string).

(** The value of the longest prefix of decimal digits. *)
Fixpoint digitsValue (acc : Z) (s : string) : Z :=
  match s with
  | String c t =>
      if isDigit c then digitsValue (10 * acc + (Z.of_N (code c) - 48)) t
      else acc
  | EmptyString => acc
  end.

(** [parseInt(s, 10)]: leading white space, an optional sign, then the
    longest run of digits; [None] is [NaN].  The value is the mathematical
    integer of the digits, which [parseInt] then rounds to a double: the
    two are the same up to [2^53] in absolute value. *)
Definition parseInt10 (s : string) : option Z :=
  let s' := dropWhile isWhiteSpace s in
  let '(negative, body) :=
    match s' with
    | String c t =>
        if Ascii.eqb c "-" then (true, t)
        else if Ascii.eqb c "+" then (false, t)
        else (false, s')
    | EmptyString => (false, s')
    end in
  match body with
  | String c _ =>
      if isDigit c
      then Some (if negative then (- digitsValue 0 body)%Z else digitsValue 0 body)
      else None
  | EmptyString => None
  end.

Definition convertValue (value : JsValue) : Converted :=
  match value with
  | JNull | JUndefined => CNull
  | _ =>
      let strValue := trim (String_ value) in
      if isEmpty strValue || String.eqb (toLowerCase strValue) "null" then CNull
      else
        let lowerStr := toLowerCase strValue in
        if includes ["true"; "yes"; "y"; "1"] lowerStr then CBool true
        else if includes ["false"; "no"; "n"; "0"] lowerStr then CBool false
        else
          match (if Re.integer strValue then parseInt10 strValue else None) with
          | Some intValue => CNumber intValue
          | None =>
              if Re.float strValue then CFloat strValue
              else CString strValue
          end
  end.

(** A converted row, an object used as a map from field name to value:
    the properties in creation order.  The order in which JavaScript lists
    the keys of an object is another one when some keys are array indices
    (["0"], ["12"]: these come first, in ascending order); the theorems on
    rows are stated through the keys as a set and through [lookupProp], not
    through the order of the list. *)
Definition Row : Type := list (string * Converted).

(** [row[key] = v]: an existing property keeps its place and takes the new
    value, a new one goes last. *)
Fixpoint setProp (row : Row) (key : string) (v : Converted) : Row :=
  match row with
  | [] => [(key, v)]
  | (k, x) :: rest =>
      if String.eqb k key then (k, v) :: rest
      else (k, x) :: setProp rest key v
  end.

(** The body of the [headers.forEach] callback of [parseCSV]. *)
Definition setCell (values : list string) (row : Row) (header : string)
           (index : nat) : Row :=
  let value := nth_error values index in
  let fieldName := sanitizeFieldName header in
  match value with
  | None => setProp row fieldName CNull
  | Some v =>
      if isEmpty (trim v) then setProp row fieldName CNull
      else setProp row fieldName (convertValue (JStr v))
  end.

Definition csvRow (headers values : list string) : Row :=
  fold_left (fun row hi => setCell values row (fst hi) (snd hi))
            (combine headers (seq 0 (List.length headers))) [].

(** The [for (let i = 1; i < lines.length; i++)] loop over the data lines,
    [continue] on a line whose number of values is not the header's. *)
Fixpoint parseCSV_loop (headers : list string) (dataLines : list string)
         (rows : list Row) : list Row :=
  match dataLines with
  | [] => rows
  | line :: rest =>
      let values := parseCSVLine line in
      if negb (List.length values =? List.length headers)%nat
      then parseCSV_loop headers rest rows
      else parseCSV_loop headers rest (rows ++ [csvRow headers values])
  end.

Definition parseCSV (csvContent : string) : Result (list Row) :=
  let lines := splitLines (trim csvContent) in
  if (List.length lines <? 2)%nat
  then Err "CSV must have at least a header and one data row"
  else
    let headers := parseCSVLine (hd EmptyString lines) in
    Ok (parseCSV_loop headers (tl lines) []).

(** [JSON.parse], the runtime's: a value, or a [SyntaxError] with its
    message. *)
Class Json : Type := { JSON_parse : string -> Result JsValue }.

(** [typeof v === 'object'], which holds of [null] and of arrays too *)
Definition typeofObject (v : JsValue) : bool :=
  match v with
  | JNull | JArr _ | JObj _ => true
  | _ => false
  end.

Definition isNull (v : JsValue) : bool :=
  match v with JNull => true | _ => false end.

(** [Array.isArray(v)] *)
Definition isArray (v : JsValue) : bool :=
  match v with JArr _ => true | _ => false end.

(** The own enumerable properties of an object; an array has its indices
    as keys. *)
Definition ownProps (v : JsValue) : list (string * JsValue) :=
  match v with
  | JObj props => props
  | JArr elems => combine (map string_of_nat (seq 0 (List.length elems))) elems
  | _ => []
  end.

(** [Object.keys(record)] *)
Definition keysOf (record : JsValue) : list string := map fst (ownProps record).

(** [record[key]] *)
Definition getProp (record : JsValue) (key : string) : JsValue :=
  match find (fun p => String.eqb (fst p) key) (ownProps record) with
  | Some p => snd p
  | None => JUndefined
  end.

(** The callback of [records.map] in [parseJSON]. *)
Definition cleanRecord (record : JsValue) : Result Row :=
  if negb (typeofObject record) || isNull record
  then Err "Each record must be an object"
  else Ok (fold_left
             (fun clean key =>
                setProp clean (sanitizeFieldName key) (convertValue (getProp record key)))
             (keysOf record) []).

(** The [catch] of [parseJSON]: every error thrown inside is wrapped. *)
Definition invalidJSON {A} (r : Result A) : Result A :=
  match r with
  | Ok a => Ok a
  | Err m => Err ("Invalid JSON format: " ++ m)
  end.

Definition parseJSON `{Json} (jsonContent : string) : Result (list Row) :=
  invalidJSON
    (bind (JSON_parse jsonContent) (fun data =>
     bind (if isArray data then Ok (match data with JArr elems => elems | _ => [] end)
           else if typeofObject data && negb (isNull data) then Ok [data]
           else Err "JSON must be an object or array of objects")
          (fun records => mapM cleanRecord records))).

(** ** The load: [POST] of the insert route *)

(** The warehouse client.  A call changes the state of the world and either
    resolves or rejects ([Err], with the message of the error).
    [table_exists] is [table.exists()], [delete_all] is the [DELETE ...
    WHERE TRUE] query job with its [getQueryResults], [table_insert] is
    [table.insert(batch, ...)]; all three act on the table named by the
    dataset and table identifiers. *)
Class Warehouse (World : Type) : Type := {
  table_exists : string -> string -> World -> Result bool * World;
  delete_all : string -> string -> World -> Result unit * World;
  table_insert : string -> string -> list Row -> World -> Result unit * World
}.

(** The body of the request; an absent or empty field is falsy, an absent
    [mode] takes the default ['append']. *)
Record InsertRequest : Type := mkRequest {
  datasetId : string;
  tableId : string;
  content : string;
  type : string;
  mode : option string
}.

Inductive Response : Type :=
| JsonError (error : string) (status : nat)
| JsonSuccess (rowsInserted totalRows : nat) (table : string) (mode : string).

(** The calls made to the warehouse, in order, with their outcome.  The log
    is not in the source: it records what the source does. *)
Inductive Event : Type :=
| TableExists
| DeleteAll (ok : bool)
| Insert (batch : list Row) (ok : bool).

Definition batchSize : nat := 1000.

Section Load.
Context {World : Type} `{Warehouse World}.

(** [for (let i = 0; i < rows.length; i += size)], one iteration for each
    unit of [fuel]; [insertBatches] below gives it enough. *)
Fixpoint insertLoop (size : nat) (ds tb : string) (rows : list Row)
         (fuel i totalInserted : nat) (log : list Event) (w : World)
  : nat * list Event * World :=
  match fuel with
  | O => (totalInserted, log, w)
  | S fuel' =>
      if (i <? List.length rows)%nat then
        let batch := slice i (i + size) rows in
        match table_insert ds tb batch w with
        | (Ok _, w') =>
            insertLoop size ds tb rows fuel' (i + size)
                       (totalInserted + List.length batch)
                       (log ++ [Insert batch true]) w'
        | (Err _, w') =>
            insertLoop size ds tb rows fuel' (i + size) totalInserted
                       (log ++ [Insert batch false]) w'
        end
      else (totalInserted, log, w)
  end.

Definition insertBatches (ds tb : string) (rows : list Row) (w : World)
  : nat * list Event * World :=
  insertLoop batchSize ds tb rows (List.length rows) 0 0 [] w.

(** The [if (mode === 'replace')] block with its own [try]/[catch]. *)
Definition purge (mode : string) (ds tb : string) (w : World)
  : list Event * World :=
  if String.eqb mode "replace" then
    match delete_all ds tb w with
    | (Ok _, w') => ([DeleteAll true], w')
    | (Err _, w') => ([DeleteAll false], w')
    end
  else ([], w).

Definition POST `{Json} (request : InsertRequest) (w : World)
  : Response * list Event * World :=
  let ds := datasetId request in
  let tb := tableId request in
  let mode := match mode request with Some m => m | None => "append" end in
  if isEmpty ds || isEmpty tb || isEmpty (content request) || isEmpty (type request)
  then (JsonError "datasetId, tableId, content, and type are required" 400, [], w)
  else
    match (if String.eqb (type request) "csv" then Some (parseCSV (content request))
           else if String.eqb (type request) "json" then Some (parseJSON (content request))
           else None) with
    | None => (JsonError "Unsupported data type" 400, [], w)
    | Some (Err m) => (JsonError ("Failed to insert data: " ++ m) 500, [], w)
    | Some (Ok rows) =>
        if (List.length rows =? 0)%nat
        then (JsonError "No data rows found to insert" 400, [], w)
        else
          match table_exists ds tb w with
          | (Err m, w1) =>
              (JsonError ("Failed to insert data: " ++ m) 500, [TableExists], w1)
          | (Ok false, w1) =>
              (JsonError ("Table " ++ ds ++ "." ++ tb ++ " does not exist") 404,
               [TableExists], w1)
          | (Ok true, w1) =>
              let '(purged, w2) := purge mode ds tb w1 in
              let '(totalInserted, inserts, w3) := insertBatches ds tb rows w2 in
              (JsonSuccess totalInserted (List.length rows) (ds ++ "." ++ tb) mode,
               TableExists :: purged ++ inserts, w3)
          end
    end.
End Load.

(** ** Specification-side definitions *)

(** The output shape of the sanitizer: not empty, lower-case letters,
    digits and single underscores only, no underscore at either end. *)
Definition isLowWord (c : ascii) : bool := isLower c || isDigit c || isUnderscore c.

Fixpoint noDoubleUnderscore (s : string) : bool :=
  match s with
  | String c ((String c' _) as t) =>
      negb (isUnderscore c && isUnderscore c') && noDoubleUnderscore t
  | _ => true
  end.

Definition startsWith (p : ascii -> bool) (s : string) : bool :=
  match s with
  | String c _ => p c
  | EmptyString => false
  end.

Fixpoint endsWith (p : ascii -> bool) (s : string) : bool :=
  match s with
  | EmptyString => false
  | String c EmptyString => p c
  | String _ t => endsWith p t
  end.

(** The chain of [sanitizeFieldName] before the [|| 'unnamed_field']. *)
Definition sanitizeChain (name : string) : string :=
  stripUnderscores
    (collapseUnderscores (prefixUnderscore (replaceNonWord (toLowerCase (trim name))))).

Definition canonical (s : string) : bool :=
  negb (isEmpty s) && sall isLowWord s && noDoubleUnderscore s
  && negb (startsWith isUnderscore s) && negb (endsWith isUnderscore s).

(** The classifier as the specification words it: the one vote of a value,
    [None] for a skipped one. *)
Definition voteOf (value : JsValue) : option FieldType :=
  let s := trim (String_ value) in
  if isEmpty s || String.eqb (toLowerCase s) "null" then None
  else if includes booleanWords (toLowerCase s) then Some BOOLEAN
  else if Re.integer s then Some INTEGER
  else if Re.float s then Some FLOAT
  else if Re.timestamp s then Some TIMESTAMP
  else if Re.dateIso s || Re.dateSlash s then Some DATE
  else Some STRING.

Definition FieldType_eqb (a b : FieldType) : bool :=
  match a, b with
  | STRING, STRING | INTEGER, INTEGER | FLOAT, FLOAT
  | BOOLEAN, BOOLEAN | TIMESTAMP, TIMESTAMP | DATE, DATE => true
  | _, _ => false
  end.

Definition votedFor (t : FieldType) (value : JsValue) : bool :=
  match voteOf value with
  | Some t' => FieldType_eqb t t'
  | None => false
  end.

Definition isCounted (value : JsValue) : bool :=
  match voteOf value with Some _ => true | None => false end.

(** The counter of [typeCounts] that a type names, and the tally after one
    more vote. *)
Definition countFor (t : FieldType) (tc : TypeCounts) : nat :=
  match t with
  | INTEGER => cnt_integer tc
  | FLOAT => cnt_float tc
  | BOOLEAN => cnt_boolean tc
  | DATE => cnt_date tc
  | TIMESTAMP => cnt_timestamp tc
  | STRING => cnt_string tc
  end.

Definition oneIf (b : bool) : nat := if b then 1 else 0.

(** The number of votes for [t], and the number of counted values. *)
Definition votes (t : FieldType) (values : list JsValue) : nat :=
  List.length (filter (votedFor t) values).
Definition counted (values : list JsValue) : nat :=
  List.length (filter isCounted values).

(** The first type in the priority order with at least 70% of the votes. *)
Definition winner (values : list JsValue) : FieldType :=
  match find (fun t => (7 * counted values <=? 10 * votes t values)%nat)
             [INTEGER; FLOAT; BOOLEAN; TIMESTAMP; DATE] with
  | Some t => t
  | None => STRING
  end.

(** A value the classifier skips: empty or ["null"] once stringified and
    trimmed. *)
Definition isSkipped (value : JsValue) : bool :=
  let s := trim (String_ value) in
  isEmpty s || String.eqb (toLowerCase s) "null".

(** The parts of a CSV document as [detectCSVSchema] and [parseCSV] cut
    it: the lines of the trimmed text, the header's fields, the lines
    after the header, the sampled rows. *)
Definition linesOf (csvContent : string) : list string := splitLines (trim csvContent).
Definition headersOf (csvContent : string) : list string :=
  parseCSVLine (hd EmptyString (linesOf csvContent)).
Definition dataLinesOf (csvContent : string) : list string := tl (linesOf csvContent).
Definition sampleRowsOf (csvContent : string) : list (list string) :=
  map parseCSVLine
      (slice 1 (Nat.min 11 (List.length (linesOf csvContent))) (linesOf csvContent)).

(** A data line has as many values as the header has fields. *)
Definition fitsHeader (headers : list string) (line : string) : bool :=
  (List.length (parseCSVLine line) =? List.length headers)%nat.

Definition nl : string := String "010" EmptyString.

(** The text [id,name\n1,Alice\n2,Bob\n3,] *)
Definition peopleCSV : string :=
  "id,name" ++ nl ++ "1,Alice" ++ nl ++ "2,Bob" ++ nl ++ "3,".

(** A header, a good line, a short line, a good line. *)
Definition raggedCSV : string :=
  "a,b" ++ nl ++ "1,x" ++ nl ++ "oops" ++ nl ++ "2,y".

(** The batches and the inserted rows read off a log of [Insert] calls. *)
Definition batchOf (e : Event) : list Row :=
  match e with Insert batch _ => batch | _ => [] end.
Definition isInsert (e : Event) : bool :=
  match e with Insert _ _ => true | _ => false end.
Definition insertedBy (e : Event) : nat :=
  match e with Insert batch true => List.length batch | _ => 0 end.
Definition insertedRows (log : list Event) : nat :=
  fold_right (fun e n => insertedBy e + n) 0 log.

(** Consecutive batches of a partition: every batch but the last has
    exactly [size] rows, the last has between 1 and [size]. *)
Fixpoint fullThenRest (size : nat) (batches : list (list Row)) : Prop :=
  match batches with
  | [] => True
  | [b] => 1 <= List.length b <= size
  | b :: rest => List.length b = size /\ fullThenRest size rest
  end.

(** The log of a run of [table.insert] calls made one after the other from
    world [w], each with the outcome the warehouse gave. *)
Inductive InsertRun {World : Type} `{Warehouse World} (ds tb : string)
  : World -> list Event -> World -> Prop :=
| run_done : forall w, InsertRun ds tb w [] w
| run_ok : forall w batch u w' log w'',
    table_insert ds tb batch w = (Ok u, w') ->
    InsertRun ds tb w' log w'' ->
    InsertRun ds tb w (Insert batch true :: log) w''
| run_failed : forall w batch m w' log w'',
    table_insert ds tb batch w = (Err m, w') ->
    InsertRun ds tb w' log w'' ->
    InsertRun ds tb w (Insert batch false :: log) w''.

(** What [POST] parses the content into, when the type is a known one. *)
Definition parsedRows `{Json} (request : InsertRequest) : option (Result (list Row)) :=
  if String.eqb (type request) "csv" then Some (parseCSV (content request))
  else if String.eqb (type request) "json" then Some (parseJSON (content request))
  else None.

(** The request passes the first check of [POST]: no required field is
    missing or empty. *)
Definition hasRequiredFields (request : InsertRequest) : bool :=
  negb (isEmpty (datasetId request) || isEmpty (tableId request)
        || isEmpty (content request) || isEmpty (type request)).

(** The mode of a request, ['append'] when none is given. *)
Definition modeOf (request : InsertRequest) : string :=
  match mode request with Some m => m | None => "append" end.

(** ** Two test doubles *)

(** A warehouse whose table exists, whose delete-all always fails and
    whose second insert call fails; the world counts the insert calls. *)
#[local] Instance flakyWarehouse : Warehouse nat := {|
  table_exists := fun _ _ w => (Ok true, w);
  delete_all := fun _ _ w => (Err "DML over a table with a streaming buffer", w);
  table_insert := fun _ _ _ w =>
    (if (w =? 1)%nat then Err "insert failed" else Ok tt, S w)
|}.

(** [JSON.parse] on the two documents used below. *)
#[local] Instance stubJson : Json := {|
  JSON_parse := fun s =>
    if String.eqb s "[[1,2]]" then Ok (JArr [JArr [JNum 1; JNum 2]])
    else if String.eqb s "[{},7]" then Ok (JArr [JObj []; JNum 7])
    else Err "Unexpected token"
|}.

(** A CSV document with the header [n] and the data lines [k], ..., [2]. *)
Fixpoint countdownLines (k : nat) : string :=
  match k with
  | O | S O => EmptyString
  | S k' => String "010" (string_of_nat k) ++ countdownLines k'
  end.
Definition countdownCSV (k : nat) : string := "n" ++ countdownLines k.

(** Two requests against the table [d.t]: 2001 data rows to append, and
    two rows to put in place of the table's contents. *)
Definition bigAppend : InsertRequest :=
  mkRequest "d" "t" (countdownCSV 2002) "csv" None.
Definition smallReplace : InsertRequest :=
  mkRequest "d" "t" raggedCSV "csv" (Some "replace").

(** ** Writing delimited text *)

(** [s.split(sep)] for a one-character separator. *)
Fixpoint splitOn (sep : ascii) (s : string) : list string :=
  match s with
  | EmptyString => [EmptyString]
  | String c t =>
      if Ascii.eqb c sep
      then EmptyString :: splitOn sep t
      else match splitOn sep t with
           | l :: ls => String c l :: ls
           | [] => [String c EmptyString]
           end
  end.

(** [l.join(sep)] *)
Fixpoint joinWith (sep : string) (l : list string) : string :=
  match l with
  | [] => EmptyString
  | [x] => x
  | x :: t => x ++ sep ++ joinWith sep t
  end.

Definition isQuote (c : ascii) : bool := Ascii.eqb c "034".
Definition isComma (c : ascii) : bool := Ascii.eqb c ",".

(** A field written the way the tokenizer reads it back: every double
    quote doubled, the whole between double quotes. *)
Fixpoint escapeQuotes (f : string) : string :=
  match f with
  | EmptyString => EmptyString
  | String c t =>
      if isQuote c then String c (String c (escapeQuotes t))
      else String c (escapeQuotes t)
  end.

Definition quoteField (f : string) : string :=
  String "034" (escapeQuotes f ++ String "034" EmptyString).

(** The number of characters of [s] that satisfy [p]. *)
Fixpoint countChars (p : ascii -> bool) (s : string) : nat :=
  match s with
  | EmptyString => 0
  | String c t => (if p c then 1 else 0) + countChars p t
  end.

(** A string that [trim] leaves as it is. *)
Definition isTrimmed (s : string) : Prop := trim s = s.

(** ** Decimal numerals *)

(** The value of a decimal numeral read from its first digit on, [acc]
    being the value of what was read before. *)
Fixpoint uintValue (acc : Z) (d : Decimal.uint) : Z :=
  match d with
  | Decimal.Nil => acc
  | Decimal.D0 l => uintValue (10 * acc + 0) l
  | Decimal.D1 l => uintValue (10 * acc + 1) l
  | Decimal.D2 l => uintValue (10 * acc + 2) l
  | Decimal.D3 l => uintValue (10 * acc + 3) l
  | Decimal.D4 l => uintValue (10 * acc + 4) l
  | Decimal.D5 l => uintValue (10 * acc + 5) l
  | Decimal.D6 l => uintValue (10 * acc + 6) l
  | Decimal.D7 l => uintValue (10 * acc + 7) l
  | Decimal.D8 l => uintValue (10 * acc + 8) l
  | Decimal.D9 l => uintValue (10 * acc + 9) l
  end.

(** A digit or the minus sign: the characters of a printed integer. *)
Definition isDigitOrMinus (c : ascii) : bool := isDigit c || Ascii.eqb c "-".

(** ** More specification-side definitions *)

(** An ASCII letter or digit. *)
Definition isAlnum (c : ascii) : bool := isLower c || isUpper c || isDigit c.

(** Some character of [s] satisfies [p]. *)
Fixpoint sany (p : ascii -> bool) (s : string) : bool :=
  match s with
  | EmptyString => false
  | String c t => p c || sany p t
  end.

(** [String(v)] returns: no object with an own [toString] property is
    met, in [v] itself or in the elements of an array. *)
Fixpoint stringifies (v : JsValue) : bool :=
  match v with
  | JObj props => negb (existsb (String.eqb "toString") (map fst props))
  | JArr elems => forallb stringifies elems
  | _ => true
  end.

(** The value [parseCSV] stores for the cell at [index] of a line. *)
Definition cellValue (values : list string) (index : nat) : Converted :=
  match nth_error values index with
  | None => CNull
  | Some v => if isEmpty (trim v) then CNull else convertValue (JStr v)
  end.

(** [row[key]], [None] for [undefined]. *)
Definition lookupProp (row : Row) (key : string) : option Converted :=
  option_map snd (find (fun p => String.eqb (fst p) key) row).

(** The names of the properties of a row. *)
Definition rowKeys (row : Row) : list string := map fst row.

(** [props.forEach(x => row[key x] = value x)] from the row [init]. *)
Definition setAll {X : Type} (key : X -> string) (value : X -> Converted)
           (xs : list X) (init : Row) : Row :=
  fold_left (fun row x => setProp row (key x) (value x)) xs init.

(** The headers with their positions. *)
Definition indexed (headers : list string) : list (string * nat) :=
  combine headers (seq 0 (List.length headers)).

Definition isNewline (c : ascii) : bool := Ascii.eqb c "010".

(** The message of the error both CSV readers throw. *)
Definition tooShort : string := "CSV must have at least a header and one data row".

(** Eleven lines, and the same eleven lines followed by a twelfth. *)
Definition elevenLines : string := countdownCSV 11.
Definition twelveLines : string := countdownCSV 11 ++ nl ++ "not,a,number".

(** ** More test doubles *)

(** [JSON.parse] on five small documents. *)
#[local] Instance smallJson : Json := {|
  JSON_parse := fun s =>
    if String.eqb s "{}" then Ok (JObj [])
    else if String.eqb s "[{}]" then Ok (JArr [JObj []])
    else if String.eqb s "[]" then Ok (JArr [])
    else if String.eqb s "null" then Ok JNull
    else if String.eqb s "7" then Ok (JNum 7)
    else Err "Unexpected token"
|}.

(** The text [{"Order Id":7}], the same between brackets, and
    [JSON.parse] on the two. *)
Definition orderText : string :=
  "{" ++ String "034" "Order Id" ++ String "034" ":7}".
Definition orderArrayText : string := "[" ++ orderText ++ "]".

#[local] Instance orderJson : Json := {|
  JSON_parse := fun s =>
    if String.eqb s orderText then Ok (JObj [("Order Id", JNum 7)])
    else if String.eqb s orderArrayText then Ok (JArr [JObj [("Order Id", JNum 7)]])
    else Err "Unexpected token"
|}.

(** A warehouse whose table exists and takes every batch, and one whose
    table exists and refuses every batch; the world counts the calls. *)
#[local] Instance goodWarehouse : Warehouse nat := {|
  table_exists := fun _ _ w => (Ok true, S w);
  delete_all := fun _ _ w => (Ok tt, S w);
  table_insert := fun _ _ _ w => (Ok tt, S w)
|}.

#[local] Instance deadWarehouse : Warehouse nat := {|
  table_exists := fun _ _ w => (Ok true, S w);
  delete_all := fun _ _ w => (Ok tt, S w);
  table_insert := fun _ _ _ w => (Err "quota exceeded", S w)
|}.

(** The same request with another mode. *)
Definition withMode (m : option string) (request : InsertRequest) : InsertRequest :=
  mkRequest (datasetId request) (tableId request) (content request) (type request) m.

(** The answer with the echoed mode left out. *)
Definition forgetMode (r : Response) : Response :=
  match r with
  | JsonSuccess n total table _ => JsonSuccess n total table EmptyString
  | JsonError e status => JsonError e status
  end.

Definition isDelete (e : Event) : bool :=
  match e with DeleteAll _ => true | _ => false end.

(** ** The create route: [POST] of [src/routes/api/tables/create/+server.ts] *)

(** [!v] is [negb (truthy v)]: [null], [undefined], [false], [0] and [""]
    are falsy, every other value is truthy. *)
Definition truthy (v : JsValue) : bool :=
  match v with
  | JNull | JUndefined => false
  | JBool b => b
  | JNum z => negb (z =? 0)%Z
  | JStr s => negb (isEmpty s)
  | JArr _ | JObj _ => true
  end.

(** [needle] occurs in [s]: [s.includes(needle)]. *)
Fixpoint isPrefixOf (p s : string) : bool :=
  match p, s with
  | EmptyString, _ => true
  | String a p', String b s' => Ascii.eqb a b && isPrefixOf p' s'
  | String _ _, EmptyString => false
  end.

Fixpoint isInfixOf (needle s : string) : bool :=
  isPrefixOf needle s ||
  match s with
  | EmptyString => false
  | String _ t => isInfixOf needle t
  end.

Module CreateRoute.

(** A field as sent to the warehouse: [{name, type, mode, description}],
    each property as it was found in the request. *)
Record BigQueryField : Type := mkBQ {
  bq_name : JsValue;
  bq_type : JsValue;
  bq_mode : JsValue;
  bq_description : JsValue
}.

(** The warehouse client of this route, the project identifier of the
    environment ([""] when it is not set) and the message of the engine's
    [TypeError] for a property read on [null] or [undefined]. *)
Class Catalog (World : Type) : Type := {
  dataset_exists : string -> World -> Result bool * World;
  dataset_create : string -> World -> Result unit * World;
  table_exists : string -> string -> World -> Result bool * World;
  table_create : string -> string -> list BigQueryField -> World -> Result string * World;
  GOOGLE_CLOUD_PROJECT_ID : string;
  cannotRead : JsValue -> string -> string
}.

Record CreateRequest : Type := mkCreate {
  datasetId : string;
  tableId : string;
  schema : JsValue
}.

Inductive Response : Type :=
| JsonError (error : string) (status : nat)
| JsonSuccess (table : string) (fullTableName : string) (schema : list BigQueryField).

Inductive Event : Type :=
| DatasetExists
| DatasetCreate (ok : bool)
| TableExists
| TableCreate (ok : bool).

(** [field.name], [field.type], ... on an element of the schema array: a
    [TypeError] on [null] and [undefined], the own property otherwise
    (no prototype has a property of one of these four names). *)
Definition readProp `{Catalog} (field : JsValue) (key : string) : Result JsValue :=
  match field with
  | JNull | JUndefined => Err (cannotRead field key)
  | _ => Ok (getProp field key)
  end.

(** The [for (const field of schema)] loop: [Ok true] when it runs to its
    end, [Ok false] when it returns the 400 answer, [Err] when a property
    read throws. *)
Fixpoint validateFields `{Catalog} (fields : list JsValue) : Result bool :=
  match fields with
  | [] => Ok true
  | field :: rest =>
      bind (readProp field "name") (fun name =>
      if negb (truthy name) then Ok false
      else bind (readProp field "type") (fun type =>
      if negb (truthy type) then Ok false
      else bind (readProp field "mode") (fun mode =>
      if negb (truthy mode) then Ok false
      else validateFields rest)))
  end.

(** The callback of [schema.map]; [a || undefined] keeps a truthy [a]. *)
Definition toBigQuery (field : JsValue) : BigQueryField :=
  mkBQ (getProp field "name") (getProp field "type") (getProp field "mode")
       (if truthy (getProp field "description") then getProp field "description"
        else JUndefined).

Definition failed {World : Type} (m : string) (log : list Event) (w : World)
  : Response * list Event * World :=
  (JsonError ("Failed to create table: " ++ m) 500, log, w).

Definition POST {World : Type} `{Catalog World} (request : CreateRequest) (w : World)
  : Response * list Event * World :=
  let ds := datasetId request in
  let tb := tableId request in
  if isEmpty ds || isEmpty tb || negb (truthy (schema request))
     || negb (isArray (schema request))
  then (JsonError "datasetId, tableId, and schema are required" 400, [], w)
  else
    let fields := match schema request with JArr elems => elems | _ => [] end in
    match validateFields fields with
    | Err m => failed m [] w
    | Ok false => (JsonError "Each schema field must have name, type, and mode" 400, [], w)
    | Ok true =>
        let projectId := orElse GOOGLE_CLOUD_PROJECT_ID "computellm-468509" in
        match dataset_exists ds w with
        | (Err m, w1) => failed m [DatasetExists] w1
        | (Ok datasetExists, w1) =>
            let afterDataset :=
              if negb datasetExists then
                match dataset_create ds w1 with
                | (Err m, w2) => (Err m, [DatasetCreate false], w2)
                | (Ok _, w2) => (Ok tt, [DatasetCreate true], w2)
                end
              else (Ok tt, [], w1) in
            match afterDataset with
            | (Err m, created, w2) => failed m (DatasetExists :: created) w2
            | (Ok _, created, w2) =>
                match table_exists ds tb w2 with
                | (Err m, w3) =>
                    failed m (DatasetExists :: created ++ [TableExists]) w3
                | (Ok true, w3) =>
                    (JsonError ("Table " ++ ds ++ "." ++ tb ++ " already exists") 409,
                     (DatasetExists :: created ++ [TableExists])%list, w3)
                | (Ok false, w3) =>
                    let bigQuerySchema := map toBigQuery fields in
                    match table_create ds tb bigQuerySchema w3 with
                    | (Err m, w4) =>
                        failed m (DatasetExists :: created ++ [TableExists; TableCreate false]) w4
                    | (Ok id, w4) =>
                        (JsonSuccess id (projectId ++ "." ++ ds ++ "." ++ tb) bigQuerySchema,
                         (DatasetExists :: created ++ [TableExists; TableCreate true])%list, w4)
                    end
                end
            end
        end
    end.

(** The field passes the check of the loop. *)
Definition wellFormed (field : JsValue) : bool :=
  truthy (getProp field "name") && truthy (getProp field "type")
  && truthy (getProp field "mode").

(** Neither [null] nor [undefined]. *)
Definition notNullish (v : JsValue) : Prop := v <> JNull /\ v <> JUndefined.

Definition isCreate (e : Event) : bool :=
  match e with TableCreate _ => true | _ => false end.

(** A catalog in which the dataset is missing and the table, once the
    dataset is there, is not; and one in which both exist. *)
#[local] Instance emptyCatalog : Catalog nat := {|
  dataset_exists := fun _ w => (Ok false, S w);
  dataset_create := fun _ w => (Ok tt, S w);
  table_exists := fun _ _ w => (Ok false, S w);
  table_create := fun _ tb _ w => (Ok tb, S w);
  GOOGLE_CLOUD_PROJECT_ID := EmptyString;
  cannotRead := fun _ key => "Cannot read properties of null (reading '" ++ key ++ "')"
|}.

#[local] Instance fullCatalog : Catalog nat := {|
  dataset_exists := fun _ w => (Ok true, S w);
  dataset_create := fun _ w => (Err "Already Exists: Dataset", S w);
  table_exists := fun _ _ w => (Ok true, S w);
  table_create := fun _ _ _ w => (Err "Already Exists: Table", S w);
  GOOGLE_CLOUD_PROJECT_ID := "my-project";
  cannotRead := fun _ key => "Cannot read properties of null (reading '" ++ key ++ "')"
|}.

(** The schema [[{name: "id", type: "INTEGER", mode: "REQUIRED"}]]. *)
Definition oneField : JsValue :=
  JArr [JObj [("name", JStr "id"); ("type", JStr "INTEGER"); ("mode", JStr "REQUIRED")]].

End CreateRoute.

(** ** The upload form: [src/lib/FileUpload.svelte] and the table name of
    [src/lib/DatasetManager.svelte] *)

Module Upload.

(** [name.split('.').pop()]: the text after the last dot, the whole name
    when it has no dot. *)
Definition lastPiece (name : string) : string :=
  last (splitOn "." name) EmptyString.

(** ['.' + file.name.split('.').pop()?.toLowerCase()] *)
Definition extensionOf (name : string) : string :=
  "." ++ toLowerCase (lastPiece name).

(** [validateFile]: the error text, or [None] for [null].  [acceptedTypes]
    and [maxSizeBytes] are the properties of the component; the sizes are
    whole numbers of bytes, for which [Math.round(x / 1024 / 1024)] is the
    quotient of [x + 2^19] by [2^20] (the two divisions are exact in
    double precision, and [Math.round] rounds a half up). *)
Definition validateFile (acceptedTypes : list string) (maxSizeBytes : N)
           (name : string) (size : N) : option string :=
  let extension := extensionOf name in
  if negb (includes acceptedTypes extension)
  then Some ("File type " ++ extension ++ " not supported. Please upload "
             ++ joinWith " or " acceptedTypes ++ " files.")
  else if (maxSizeBytes <? size)%N
  then Some ("File size too large. Maximum size is "
             ++ string_of_Z (Z.of_N ((maxSizeBytes + 524288) / 1048576)) ++ "MB.")
  else None.

(** The [type] that [processFile] gives the file:
    [extension === 'csv' ? 'csv' : 'json']. *)
Definition fileType (name : string) : string :=
  if String.eqb (toLowerCase (lastPiece name)) "csv" then "csv" else "json".

Definition notSlashDot (c : ascii) : bool :=
  negb (Ascii.eqb c "/") && negb (Ascii.eqb c ".").

(** [.replace(/\.[^/.]+$/, '')]: the match, if any, starts at a dot that
    is followed up to the end by one or more characters other than a slash
    and a dot; [Some] is the text before the match. *)
Fixpoint beforeExtension (s : string) : option string :=
  match s with
  | EmptyString => None
  | String c t =>
      if Ascii.eqb c "." && negb (isEmpty t) && sall notSlashDot t
      then Some EmptyString
      else option_map (String c) (beforeExtension t)
  end.

Definition stripExtension (s : string) : string :=
  match beforeExtension s with
  | Some r => r
  | None => s
  end.

(** The table name proposed for an uploaded file:
    [file.name.replace(/\.[^/.]+$/, '').replace(/[^a-zA-Z0-9_]/g, '_')]. *)
Definition tableNameOf (name : string) : string :=
  replaceNonWord (stripExtension name).

End Upload.

(** * Theorems *)

(** ** Characters *)

Ltac each_char c :=
  destruct c as [[|] [|] [|] [|] [|] [|] [|] [|]]; vm_compute;
  try reflexivity; try discriminate; auto.

Lemma replaced_lowered_isLowWord : forall c,
  isLowWord (if isWordChar (toLowerChar c) then toLowerChar c else "_"%char) = true.
Proof. intro c; each_char c. Qed.

Lemma isLowWord_not_white : forall c, isLowWord c = true -> isWhiteSpace c = false.
Proof. intro c; each_char c. Qed.

Lemma isLowWord_lower_id : forall c, isLowWord c = true -> toLowerChar c = c.
Proof. intro c; each_char c. Qed.

Lemma isLowWord_isWordChar : forall c, isLowWord c = true -> isWordChar c = true.
Proof. intro c; each_char c. Qed.

Lemma isLowWord_start_or_digit : forall c,
  isLowWord c = true -> isIdentStart c = false -> isDigit c = true.
Proof. intro c; each_char c. Qed.

Lemma isDigit_not_underscore : forall c, isDigit c = true -> isUnderscore c = false.
Proof. intro c; each_char c. Qed.

Lemma isUnderscore_eq : forall c, isUnderscore c = true -> c = "_"%char.
Proof. intro c; each_char c. Qed.

Lemma isUnderscore_white : forall c, isUnderscore c = true -> isWhiteSpace c = false.
Proof. intro c; each_char c. Qed.

(** ** Strings *)

Lemma sall_dropWhile : forall p q s, sall q s = true -> sall q (dropWhile p s) = true.
Proof.
  induction s as [|c t IH]; simpl; intros Hq; [reflexivity|].
  apply andb_true_iff in Hq as [Hc Ht].
  destruct (p c); [auto|]. simpl. now rewrite Hc, Ht.
Qed.

Lemma dropWhileEnd_cons : forall p c t,
  dropWhileEnd p (String c t) = EmptyString \/
  dropWhileEnd p (String c t) = String c (dropWhileEnd p t).
Proof.
  intros p c t. simpl. destruct (dropWhileEnd p t); [|now right].
  destruct (p c); [now left|now right].
Qed.

Lemma sall_dropWhileEnd : forall p q s, sall q s = true -> sall q (dropWhileEnd p s) = true.
Proof.
  induction s as [|c t IH]; intros Hq; [reflexivity|].
  simpl in Hq. apply andb_true_iff in Hq as [Hc Ht].
  destruct (dropWhileEnd_cons p c t) as [E|E]; rewrite E; [reflexivity|].
  simpl. now rewrite Hc, IH.
Qed.

Lemma dropWhile_id : forall p s, startsWith p s = false -> dropWhile p s = s.
Proof. intros p [|c t]; simpl; intros E; [reflexivity|now rewrite E]. Qed.

Lemma dropWhileEnd_id : forall p s, endsWith p s = false -> dropWhileEnd p s = s.
Proof.
  induction s as [|c t IH]; intros E; [reflexivity|].
  destruct t as [|c' t'].
  - simpl in *. now rewrite E.
  - change (endsWith p (String c (String c' t'))) with (endsWith p (String c' t')) in E.
    change (dropWhileEnd p (String c (String c' t')))
      with (match dropWhileEnd p (String c' t') with
            | EmptyString => if p c then EmptyString else String c EmptyString
            | t'' => String c t''
            end).
    now rewrite (IH E).
Qed.

Lemma startsWith_dropWhile : forall p s, startsWith p (dropWhile p s) = false.
Proof.
  induction s as [|c t IH]; simpl; [reflexivity|].
  destruct (p c) eqn:E; [exact IH|]. simpl. exact E.
Qed.

Lemma startsWith_dropWhileEnd : forall p q s,
  startsWith q s = false -> startsWith q (dropWhileEnd p s) = false.
Proof.
  intros p q [|c t] E; [reflexivity|].
  destruct (dropWhileEnd_cons p c t) as [E'|E']; rewrite E'; [reflexivity|exact E].
Qed.

Lemma endsWith_dropWhileEnd : forall p s, endsWith p (dropWhileEnd p s) = false.
Proof.
  induction s as [|c t IH]; [reflexivity|].
  simpl. destruct (dropWhileEnd p t) as [|c' t'] eqn:E.
  - destruct (p c) eqn:Ep; [reflexivity|]. simpl. exact Ep.
  - exact IH.
Qed.

Lemma endsWith_weaken : forall (p p' q : ascii -> bool) s,
  (forall c, q c = true -> p' c = false -> p c = false) ->
  sall q s = true -> endsWith p' s = false -> endsWith p s = false.
Proof.
  intros p p' q s Himp. induction s as [|c t IH]; intros Hq E; [reflexivity|].
  simpl in Hq. apply andb_true_iff in Hq as [Hc Ht].
  destruct t as [|c' t']; [simpl in *; auto|].
  change (endsWith p (String c' t') = false). apply IH; assumption.
Qed.

Lemma noDouble_cons : forall c t,
  noDoubleUnderscore t = true ->
  isUnderscore c && startsWith isUnderscore t = false ->
  noDoubleUnderscore (String c t) = true.
Proof.
  intros c [|c' t'] Ht E; [reflexivity|].
  simpl in E. change (negb (isUnderscore c && isUnderscore c') && noDoubleUnderscore (String c' t') = true).
  now rewrite E, Ht.
Qed.

Lemma noDouble_tail : forall c t,
  noDoubleUnderscore (String c t) = true -> noDoubleUnderscore t = true.
Proof.
  intros c [|c' t'] E; [reflexivity|].
  change (negb (isUnderscore c && isUnderscore c') && noDoubleUnderscore (String c' t') = true) in E.
  now apply andb_true_iff in E.
Qed.

Lemma noDouble_head : forall c t,
  noDoubleUnderscore (String c t) = true ->
  isUnderscore c && startsWith isUnderscore t = false.
Proof.
  intros c [|c' t'] E; [apply andb_false_r|].
  change (negb (isUnderscore c && isUnderscore c') && noDoubleUnderscore (String c' t') = true) in E.
  apply andb_true_iff in E as [E _]. simpl. now apply negb_true_iff in E.
Qed.

Lemma noDouble_dropWhile : forall p s,
  noDoubleUnderscore s = true -> noDoubleUnderscore (dropWhile p s) = true.
Proof.
  induction s as [|c t IH]; intros E; [reflexivity|].
  simpl. destruct (p c); [|exact E]. apply IH. eapply noDouble_tail; eauto.
Qed.

Lemma noDouble_dropWhileEnd : forall p s,
  noDoubleUnderscore s = true -> noDoubleUnderscore (dropWhileEnd p s) = true.
Proof.
  induction s as [|c t IH]; intros E; [reflexivity|].
  destruct (dropWhileEnd_cons p c t) as [E'|E']; rewrite E'; [reflexivity|].
  apply noDouble_cons; [apply IH; eapply noDouble_tail; eauto|].
  pose proof (noDouble_head _ _ E) as Hh.
  destruct (isUnderscore c); [|reflexivity]. simpl in *.
  now apply startsWith_dropWhileEnd.
Qed.

(** ** The sanitizer's steps *)

Lemma smap_id_on : forall (f : ascii -> ascii) q s,
  (forall c, q c = true -> f c = c) -> sall q s = true -> smap f s = s.
Proof.
  intros f q s Hf. induction s as [|c t IH]; simpl; intros Hq; [reflexivity|].
  apply andb_true_iff in Hq as [Hc Ht]. now rewrite (Hf c Hc), IH.
Qed.

Lemma lowered_replaced_lowWord : forall s,
  sall isLowWord (replaceNonWord (toLowerCase s)) = true.
Proof.
  induction s as [|c t IH]; [reflexivity|].
  unfold replaceNonWord, toLowerCase in *. simpl.
  now rewrite replaced_lowered_isLowWord, IH.
Qed.

Lemma prefixUnderscore_lowWord : forall s,
  sall isLowWord s = true -> sall isLowWord (prefixUnderscore s) = true.
Proof.
  intros [|c t] E; [reflexivity|].
  unfold prefixUnderscore. destruct (isIdentStart c); [exact E|].
  change (sall isLowWord (String "_" (String c t))) with (true && sall isLowWord (String c t)).
  exact E.
Qed.

Lemma collapse_cons : forall c t, exists r, collapseUnderscores (String c t) = String c r.
Proof.
  intros c t. revert c. induction t as [|d u IH]; intros c.
  - simpl. destruct (isUnderscore c); eauto.
  - change (collapseUnderscores (String c (String d u)))
      with (if isUnderscore c
            then if isUnderscore d then collapseUnderscores (String d u)
                 else String c (collapseUnderscores (String d u))
            else String c (collapseUnderscores (String d u))).
    destruct (isUnderscore c) eqn:Ec; [|eauto].
    destruct (isUnderscore d) eqn:Ed; [|eauto].
    destruct (IH d) as [r Hr]. rewrite Hr.
    apply isUnderscore_eq in Ec, Ed. subst. eauto.
Qed.

Lemma collapse_unfold : forall c t,
  collapseUnderscores (String c t) =
  if isUnderscore c && startsWith isUnderscore t
  then collapseUnderscores t
  else String c (collapseUnderscores t).
Proof.
  intros c [|d u].
  - simpl. now destruct (isUnderscore c).
  - change (collapseUnderscores (String c (String d u)))
      with (if isUnderscore c
            then if isUnderscore d then collapseUnderscores (String d u)
                 else String c (collapseUnderscores (String d u))
            else String c (collapseUnderscores (String d u))).
    simpl startsWith. now destruct (isUnderscore c), (isUnderscore d).
Qed.

Lemma startsWith_collapse : forall p s,
  startsWith p (collapseUnderscores s) = startsWith p s.
Proof.
  intros p [|c t]; [reflexivity|].
  destruct (collapse_cons c t) as [r Hr]. now rewrite Hr.
Qed.

Lemma collapse_lowWord : forall q s,
  sall q s = true -> sall q (collapseUnderscores s) = true.
Proof.
  induction s as [|c t IH]; intros E; [reflexivity|].
  simpl in E. apply andb_true_iff in E as [Hc Ht].
  rewrite collapse_unfold.
  destruct (isUnderscore c && startsWith isUnderscore t); [auto|].
  simpl. now rewrite Hc, IH.
Qed.

Lemma collapse_noDouble : forall s, noDoubleUnderscore (collapseUnderscores s) = true.
Proof.
  induction s as [|c t IH]; [reflexivity|].
  rewrite collapse_unfold.
  destruct (isUnderscore c && startsWith isUnderscore t) eqn:E; [exact IH|].
  apply noDouble_cons; [exact IH|]. now rewrite startsWith_collapse.
Qed.

Lemma collapse_id : forall s, noDoubleUnderscore s = true -> collapseUnderscores s = s.
Proof.
  induction s as [|c t IH]; intros E; [reflexivity|].
  rewrite collapse_unfold, (noDouble_head _ _ E), IH; [reflexivity|].
  eapply noDouble_tail; eauto.
Qed.

Lemma sanitizeChain_shape : forall name,
  sanitizeChain name = EmptyString \/ canonical (sanitizeChain name) = true.
Proof.
  intros name. unfold sanitizeChain, stripUnderscores.
  set (s := collapseUnderscores _).
  assert (Hlow : sall isLowWord s = true).
  { apply collapse_lowWord, prefixUnderscore_lowWord, lowered_replaced_lowWord. }
  assert (Hnd : noDoubleUnderscore s = true) by apply collapse_noDouble.
  clearbody s.
  destruct (dropWhileEnd isUnderscore (dropWhile isUnderscore s)) eqn:E; [now left|right].
  rewrite <- E. unfold canonical.
  rewrite sall_dropWhileEnd by now apply sall_dropWhile.
  rewrite noDouble_dropWhileEnd by now apply noDouble_dropWhile.
  rewrite startsWith_dropWhileEnd by apply startsWith_dropWhile.
  rewrite endsWith_dropWhileEnd. now rewrite E.
Qed.

Lemma canonical_parts : forall s, canonical s = true ->
  isEmpty s = false /\ sall isLowWord s = true /\ noDoubleUnderscore s = true /\
  startsWith isUnderscore s = false /\ endsWith isUnderscore s = false.
Proof.
  unfold canonical. intros s E.
  repeat (apply andb_true_iff in E as [E ?]).
  repeat split; try assumption; now apply negb_true_iff.
Qed.

Lemma sanitizeChain_fixed : forall s, canonical s = true -> sanitizeChain s = s.
Proof.
  intros s E. destruct (canonical_parts s E) as (Hne & Hlow & Hnd & Hst & Hen).
  unfold sanitizeChain.
  assert (Htrim : trim s = s).
  { unfold trim. rewrite dropWhile_id, dropWhileEnd_id; trivial.
    - apply endsWith_weaken with (p' := isUnderscore) (q := isLowWord); trivial.
      intros c Hc _. now apply isLowWord_not_white.
    - destruct s as [|c t]; [reflexivity|]. simpl in *.
      apply andb_true_iff in Hlow as [Hc _]. now apply isLowWord_not_white. }
  rewrite Htrim.
  unfold toLowerCase. rewrite (smap_id_on _ isLowWord s isLowWord_lower_id Hlow).
  unfold replaceNonWord. rewrite (smap_id_on _ isLowWord s); trivial.
  2:{ intros c Hc. now rewrite isLowWord_isWordChar. }
  destruct s as [|c t]; [discriminate|].
  unfold prefixUnderscore, stripUnderscores.
  destruct (isIdentStart c) eqn:Ec.
  - rewrite collapse_id, dropWhile_id, dropWhileEnd_id; trivial.
  - rewrite collapse_id.
    + change (dropWhile isUnderscore (String "_" (String c t)))
        with (dropWhile isUnderscore (String c t)).
      rewrite dropWhile_id, dropWhileEnd_id; trivial.
    + apply noDouble_cons; trivial; try (rewrite Hst; apply andb_false_r).
Qed.

Lemma sanitizeFieldName_chain : forall name,
  sanitizeFieldName name = orElse (sanitizeChain name) "unnamed_field".
Proof. reflexivity. Qed.

Lemma sanitizeFieldName_canonical : forall name, canonical (sanitizeFieldName name) = true.
Proof.
  intros name. rewrite sanitizeFieldName_chain.
  destruct (sanitizeChain_shape name) as [E|E].
  - rewrite E. reflexivity.
  - unfold orElse. destruct (canonical_parts _ E) as (Hne & _). now rewrite Hne.
Qed.

(** ** The identifier sanitizer *)

(** C9.  The sanitizer is idempotent: sanitizing a sanitized name changes
    nothing. *)
Theorem sanitizeFieldName_idempotent : forall x,
  sanitizeFieldName (sanitizeFieldName x) = sanitizeFieldName x.
Proof.
  intros x.
  pose proof (sanitizeFieldName_canonical x) as Hc.
  rewrite (sanitizeFieldName_chain (sanitizeFieldName x)).
  rewrite (sanitizeChain_fixed _ Hc).
  destruct (canonical_parts _ Hc) as (Hne & _).
  unfold orElse. now rewrite Hne.
Qed.

(** The part of the validity claim that the code keeps: the result is never
    empty and is made of lower-case letters, digits and underscores. *)
Lemma sanitizeFieldName_word : forall x,
  sanitizeFieldName x <> EmptyString /\ sall isWordChar (sanitizeFieldName x) = true.
Proof.
  intros x. destruct (canonical_parts _ (sanitizeFieldName_canonical x)) as (Hne & Hlow & _).
  split.
  - intros E. rewrite E in Hne. discriminate.
  - clear Hne. induction (sanitizeFieldName x) as [|c t IH]; [reflexivity|].
    simpl in *. apply andb_true_iff in Hlow as [Hc Ht].
    now rewrite (isLowWord_isWordChar c Hc), IH.
Qed.

(** The result is a valid identifier unless it starts with a digit. *)
Lemma sanitizeFieldName_valid_or_digit : forall x,
  isValidIdentifier (sanitizeFieldName x) = true \/
  startsWith isDigit (sanitizeFieldName x) = true.
Proof.
  intros x. destruct (sanitizeFieldName_word x) as [Hne Hw].
  destruct (canonical_parts _ (sanitizeFieldName_canonical x)) as (_ & Hlow & _).
  destruct (sanitizeFieldName x) as [|c t]; [now elim Hne|].
  simpl in *. apply andb_true_iff in Hw as [_ Ht]. apply andb_true_iff in Hlow as [Hc _].
  destruct (isIdentStart c) eqn:E; [left; now rewrite Ht|right].
  now apply isLowWord_start_or_digit.
Qed.

(** Every canonical name that starts with a digit comes back unchanged, so
    it is returned although it is no identifier. *)
Lemma sanitizeFieldName_keeps_leading_digit : forall s,
  canonical s = true -> startsWith isDigit s = true ->
  sanitizeFieldName s = s /\ isValidIdentifier s = false.
Proof.
  intros s Hc Hd. split.
  - rewrite sanitizeFieldName_chain, (sanitizeChain_fixed _ Hc).
    destruct (canonical_parts _ Hc) as (Hne & _). unfold orElse. now rewrite Hne.
  - destruct s as [|c t]; [reflexivity|]. simpl in *.
    replace (isIdentStart c) with false; [reflexivity|].
    revert Hd. clear. each_char c.
Qed.

(** C1.  The code does not always return a valid identifier: the underscore
    put before a leading digit is removed again by the last step, so
    ["1abc"] comes back as ["1abc"], which neither matches
    [^[a-zA-Z_][a-zA-Z0-9_]*$] nor is the fallback. *)
Theorem sanitizeFieldName_leading_digit :
  sanitizeFieldName "1abc" = "1abc" /\
  prefixUnderscore "1abc" = "_1abc" /\
  stripUnderscores "_1abc" = "1abc" /\
  isValidIdentifier (sanitizeFieldName "1abc") = false /\
  sanitizeFieldName "1abc" <> "unnamed_field".
Proof. repeat split; try reflexivity. discriminate. Qed.

(** ** The value type classifier *)

Lemma countValue_vote : forall tc value t,
  countFor t (countValue tc value) = countFor t tc + oneIf (votedFor t value).
Proof.
  intros [i f b dt ts st] value t.
  unfold countValue, votedFor, voteOf.
  destruct (isEmpty _ || _); [simpl; lia|].
  destruct (includes booleanWords _); [destruct t; simpl; lia|].
  destruct (Re.integer _); [destruct t; simpl; lia|].
  destruct (Re.float _); [destruct t; simpl; lia|].
  destruct (Re.timestamp _); [destruct t; simpl; lia|].
  destruct (Re.dateIso _ || Re.dateSlash _); destruct t; simpl; lia.
Qed.

Lemma tally_votes : forall values tc t,
  countFor t (fold_left countValue values tc) = countFor t tc + votes t values.
Proof.
  induction values as [|v vs IH]; intros tc t.
  - unfold votes. simpl. lia.
  - simpl fold_left. rewrite IH, countValue_vote. unfold votes. simpl.
    destruct (votedFor t v); simpl; lia.
Qed.

Lemma totalCount_countFor : forall tc,
  totalCount tc = countFor INTEGER tc + countFor FLOAT tc + countFor BOOLEAN tc
                  + countFor DATE tc + countFor TIMESTAMP tc + countFor STRING tc.
Proof. intros tc. unfold totalCount. simpl. lia. Qed.

Lemma one_vote_each : forall value,
  oneIf (votedFor INTEGER value) + oneIf (votedFor FLOAT value)
  + oneIf (votedFor BOOLEAN value) + oneIf (votedFor DATE value)
  + oneIf (votedFor TIMESTAMP value) + oneIf (votedFor STRING value)
  = oneIf (isCounted value).
Proof.
  intros value. unfold votedFor, isCounted.
  destruct (voteOf value) as [[]|]; reflexivity.
Qed.

Lemma votes_sum : forall values,
  votes INTEGER values + votes FLOAT values + votes BOOLEAN values
  + votes DATE values + votes TIMESTAMP values + votes STRING values
  = counted values.
Proof.
  induction values as [|v vs IH]; [reflexivity|].
  pose proof (one_vote_each v) as Hv.
  unfold votes, counted in *. simpl.
  destruct (votedFor INTEGER v), (votedFor FLOAT v), (votedFor BOOLEAN v),
    (votedFor DATE v), (votedFor TIMESTAMP v), (votedFor STRING v),
    (isCounted v); simpl in *; try discriminate; lia.
Qed.

Lemma tally_total : forall values,
  totalCount (fold_left countValue values noCounts) = counted values.
Proof.
  intros values. rewrite totalCount_countFor, !tally_votes, <- votes_sum.
  simpl. lia.
Qed.

Lemma inferColumnType_winner : forall values,
  inferColumnType values =
  match values with
  | [] => STRING
  | _ :: _ => winner values
  end.
Proof.
  intros [|v vs]; [reflexivity|].
  unfold inferColumnType, winner.
  change (List.length (v :: vs) =? 0)%nat with false. cbv iota.
  set (vals := v :: vs).
  rewrite tally_total.
  set (tc := fold_left countValue vals noCounts).
  change (cnt_integer tc) with (countFor INTEGER tc).
  change (cnt_float tc) with (countFor FLOAT tc).
  change (cnt_boolean tc) with (countFor BOOLEAN tc).
  change (cnt_timestamp tc) with (countFor TIMESTAMP tc).
  change (cnt_date tc) with (countFor DATE tc).
  subst tc. rewrite !tally_votes. unfold reaches.
  change (countFor _ noCounts) with 0. rewrite !Nat.add_0_l.
  unfold find.
  repeat match goal with |- context [(?a <=? ?b)%nat] =>
    destruct (a <=? b)%nat; try reflexivity end.
Qed.

Lemma isCounted_isSkipped : forall value, isCounted value = negb (isSkipped value).
Proof.
  intros value. unfold isCounted, voteOf, isSkipped.
  destruct (isEmpty _ || _); [reflexivity|].
  destruct (includes booleanWords _); [reflexivity|].
  destruct (Re.integer _); [reflexivity|].
  destruct (Re.float _); [reflexivity|].
  destruct (Re.timestamp _); [reflexivity|].
  destruct (Re.dateIso _ || Re.dateSlash _); reflexivity.
Qed.

(** C2, as the specification states it, fails on its first example: ["1"]
    is in the boolean set, which is tested first, so ["1","2","3"] has one
    boolean vote and two integer votes, and two is less than 70% of
    three. *)
Lemma inferColumnType_123_not_INTEGER :
  inferColumnType [JStr "1"; JStr "2"; JStr "3"] <> INTEGER /\
  fold_left countValue [JStr "1"; JStr "2"; JStr "3"] noCounts = mkCounts 2 0 1 0 0 0.
Proof. split; [vm_compute; discriminate|vm_compute; reflexivity]. Qed.

(** C2, amended.  The classifier returns STRING on no values.  Otherwise
    each value moves the counter of its one vote and no other, a skipped
    value (empty or ["null"] after trimming) moves none, the votes are
    tested in the order boolean, integer, float, timestamp, date, string
    ([voteOf]), the total is the number of counted values, and the result
    is the first of INTEGER, FLOAT, BOOLEAN, TIMESTAMP, DATE with at least
    70% of the total, else STRING.  On the examples: ["1","2","3"] gives
    STRING, ["1.5","2.5"] FLOAT, ["true","false","1"] BOOLEAN, the two
    dates DATE and ["a","b","1"] STRING. *)
Theorem inferColumnType_votes :
  inferColumnType [] = STRING /\
  (forall tc value t,
     countFor t (countValue tc value) = countFor t tc + oneIf (votedFor t value)) /\
  (forall value,
     oneIf (votedFor INTEGER value) + oneIf (votedFor FLOAT value)
     + oneIf (votedFor BOOLEAN value) + oneIf (votedFor DATE value)
     + oneIf (votedFor TIMESTAMP value) + oneIf (votedFor STRING value)
     = oneIf (negb (isSkipped value))) /\
  (forall values t,
     countFor t (fold_left countValue values noCounts) = votes t values) /\
  (forall values,
     totalCount (fold_left countValue values noCounts) = counted values) /\
  (forall values,
     inferColumnType values =
     match values with
     | [] => STRING
     | _ :: _ => winner values
     end) /\
  inferColumnType [JStr "1"; JStr "2"; JStr "3"] = STRING /\
  inferColumnType [JStr "1.5"; JStr "2.5"] = FLOAT /\
  inferColumnType [JStr "true"; JStr "false"; JStr "1"] = BOOLEAN /\
  inferColumnType [JStr "2024-01-01"; JStr "2024-02-02"] = DATE /\
  inferColumnType [JStr "a"; JStr "b"; JStr "1"] = STRING.
Proof.
  split; [reflexivity|].
  split; [apply countValue_vote|].
  split; [intros value; rewrite one_vote_each, isCounted_isSkipped; reflexivity|].
  split; [intros values t; rewrite tally_votes; destruct t; reflexivity|].
  split; [apply tally_total|].
  split; [apply inferColumnType_winner|].
  repeat split; reflexivity.
Qed.

Lemma countValue_skipped : forall tc value,
  isSkipped value = true -> countValue tc value = tc.
Proof.
  intros [i f b dt ts st] value E. unfold countValue. unfold isSkipped in E.
  now rewrite E.
Qed.

Lemma tally_all_skipped : forall values tc,
  forallb isSkipped values = true -> fold_left countValue values tc = tc.
Proof.
  induction values as [|v vs IH]; intros tc E; [reflexivity|].
  simpl in E. apply andb_true_iff in E as [Ev Evs].
  simpl. rewrite (countValue_skipped tc v Ev). now apply IH.
Qed.

(** C10.  When there is at least one value and every value is skipped
    (empty or ["null"], whatever the case, once stringified and trimmed),
    the total is 0, every counter reaches the threshold and the first one
    tested wins: the result is INTEGER, not STRING. *)
Theorem inferColumnType_all_skipped : forall values,
  values <> [] -> forallb isSkipped values = true ->
  inferColumnType values = INTEGER.
Proof.
  intros values Hne Hall. unfold inferColumnType.
  destruct values as [|v vs]; [now elim Hne|].
  change (List.length (v :: vs) =? 0)%nat with false. cbv iota.
  rewrite (tally_all_skipped _ _ Hall). reflexivity.
Qed.

Lemma inferColumnType_all_skipped_witness :
  inferColumnType [JStr ""; JStr " NULL "; JNull] = INTEGER.
Proof.
  apply inferColumnType_all_skipped; [discriminate|reflexivity].
Defined.

(** ** Inference against conversion *)

Lemma includes_booleanWords : forall s,
  includes booleanWords s =
  includes ["true"; "yes"; "y"; "1"] s || includes ["false"; "no"; "n"; "0"] s.
Proof.
  intros s. unfold includes, booleanWords. simpl.
  destruct (String.eqb s "true"), (String.eqb s "false"), (String.eqb s "1"),
    (String.eqb s "0"), (String.eqb s "yes"), (String.eqb s "no"),
    (String.eqb s "y"), (String.eqb s "n"); reflexivity.
Qed.

Lemma digit_not_white : forall c, isDigit c = true -> isWhiteSpace c = false.
Proof. intro c; each_char c. Qed.

Lemma digit_not_sign : forall c,
  isDigit c = true -> Ascii.eqb c "-" = false /\ Ascii.eqb c "+" = false.
Proof. intro c; each_char c. Qed.

Lemma minus_not_white : forall c, Ascii.eqb c "-" = true -> isWhiteSpace c = false.
Proof. intro c; each_char c. Qed.

(** [parseInt] never gives [NaN] on a string that matches [^-?\d+$]. *)
Lemma parseInt10_integer : forall s,
  Re.integer s = true -> exists z, parseInt10 s = Some z.
Proof.
  intros [|c t] E; [discriminate|].
  unfold Re.integer, Re.optMinus in E. unfold parseInt10.
  destruct (Ascii.eqb c "-") eqn:Em.
  - simpl dropWhile. rewrite (minus_not_white c Em). rewrite Em.
    destruct t as [|c' t']; [discriminate|].
    unfold Re.digits1 in E. simpl in E. apply andb_true_iff in E as [Hd _].
    rewrite Hd. eauto.
  - unfold Re.digits1 in E. simpl in E. apply andb_true_iff in E as [Hd _].
    simpl dropWhile. rewrite (digit_not_white c Hd).
    destruct (digit_not_sign c Hd) as [_ Hp]. rewrite Em, Hp, Hd. eauto.
Qed.

(** C3, as stated, fails: a column of ["1"] to ["5"] is classified INTEGER
    (four integer votes out of five), and its sampled value ["1"] converts
    to the boolean [true], not to a number; and with 70% enough, a column
    classified INTEGER may hold a word, which converts to a string. *)
Lemma integer_column_not_all_numbers :
  inferColumnType [JStr "1"; JStr "2"; JStr "3"; JStr "4"; JStr "5"] = INTEGER /\
  convertValue (JStr "1") = CBool true /\
  inferColumnType [JStr "7"; JStr "8"; JStr "9"; JStr "n/a"] = INTEGER /\
  convertValue (JStr "n/a") = CString "n/a".
Proof. repeat split; reflexivity. Qed.

(** C3, amended.  For every value that the classifier counts as an integer
    (its integer counter moves), the trimmed text denotes an integer, and
    when that integer is at most [2^53] in absolute value [convertValue]
    returns it as a number.  (Above [2^53] the code returns the double
    nearest to it, which is not stated here.) *)
Theorem convertValue_integer_vote : forall value,
  cnt_integer (countValue noCounts value) = 1 ->
  exists z, parseInt10 (trim (String_ value)) = Some z /\
            ((Z.abs z <= 2 ^ 53)%Z -> convertValue value = CNumber z).
Proof.
  intros value H.
  assert (Hs : isEmpty (trim (String_ value))
               || String.eqb (toLowerCase (trim (String_ value))) "null" = false
               /\ includes booleanWords (toLowerCase (trim (String_ value))) = false
               /\ Re.integer (trim (String_ value)) = true).
  { unfold countValue, noCounts in H.
    destruct (isEmpty _ || _); [discriminate|].
    destruct (includes booleanWords _); [discriminate|].
    destruct (Re.integer _); [auto|].
    destruct (Re.float _); [discriminate|].
    destruct (Re.timestamp _); [discriminate|].
    destruct (Re.dateIso _ || Re.dateSlash _); discriminate. }
  destruct Hs as (Hskip & Hbool & Hint).
  rewrite includes_booleanWords in Hbool. apply orb_false_iff in Hbool as [Ht Hf].
  destruct (parseInt10_integer _ Hint) as [z Hz].
  exists z. split; [exact Hz|]. intros _.
  destruct value; try discriminate;
    unfold convertValue; rewrite Hskip, Ht, Hf, Hint, Hz; reflexivity.
Qed.

Lemma convertValue_integer_vote_witness :
  cnt_integer (countValue noCounts (JStr " -42 ")) = 1 /\
  (Z.abs (-42) <= 2 ^ 53)%Z /\
  convertValue (JStr " -42 ") = CNumber (-42).
Proof.
  split; [reflexivity|]. split; [vm_compute; discriminate|].
  destruct (convertValue_integer_vote (JStr " -42 ") eq_refl) as (z & Hz & Hc).
  vm_compute in Hz. injection Hz as <-. apply Hc. vm_compute. discriminate.
Defined.

(** ** Lists *)

Lemma mapi_from_length : forall A B (f : A -> nat -> B) l i,
  List.length (mapi_from i f l) = List.length l.
Proof. induction l as [|x t IH]; intros i; simpl; [reflexivity|now rewrite IH]. Qed.

Lemma mapi_from_nth : forall A B (f : A -> nat -> B) l i n,
  nth_error (mapi_from i f l) n = option_map (fun x => f x (i + n)) (nth_error l n).
Proof.
  induction l as [|x t IH]; intros i n.
  - now destruct n.
  - destruct n as [|n]; simpl.
    + now rewrite Nat.add_0_r.
    + rewrite IH. now rewrite Nat.add_succ_r.
Qed.

Lemma filter_length_le : forall A (p : A -> bool) l,
  List.length (filter p l) <= List.length l.
Proof.
  induction l as [|x t IH]; simpl; [lia|]. destruct (p x); simpl; lia.
Qed.

Lemma filter_all_length : forall A (p : A -> bool) l,
  List.length (filter p l) = List.length l <-> (forall x, In x l -> p x = true).
Proof.
  induction l as [|x t IH]; simpl.
  - split; [intros _ y []|reflexivity].
  - pose proof (filter_length_le A p t) as Hle.
    destruct (p x) eqn:E; simpl; split.
    + intros Hl y [<-|Hy]; [exact E|]. apply IH; [lia|exact Hy].
    + intros Hall. f_equal. apply IH. auto.
    + lia.
    + intros Hall. rewrite (Hall x) in E by auto. discriminate.
Qed.

Lemma filter_split_length : forall A (p : A -> bool) l,
  List.length (filter p l) + List.length (filter (fun x => negb (p x)) l)
  = List.length l.
Proof.
  induction l as [|x t IH]; simpl; [reflexivity|].
  destruct (p x); simpl; lia.
Qed.

(** ** Schema inference on CSV text *)

Lemma detectCSVSchema_unfold : forall csvContent,
  detectCSVSchema csvContent =
  if (List.length (linesOf csvContent) <? 2)%nat
  then Err "CSV must have at least a header and one data row"
  else Ok (mapi (fun header index =>
                   mkField (sanitizeFieldName header)
                           (inferColumnType
                              (map jsOfCell (columnValuesAt (sampleRowsOf csvContent) index)))
                           (if (List.length (columnValuesAt (sampleRowsOf csvContent) index)
                                =? List.length (sampleRowsOf csvContent))%nat
                            then REQUIRED else NULLABLE))
                (headersOf csvContent)).
Proof. reflexivity. Qed.

Lemma column_complete : forall sampleRows index,
  List.length (columnValuesAt sampleRows index) = List.length sampleRows <->
  (forall row, In row sampleRows -> cellPresent (nth_error row index) = true).
Proof.
  intros sampleRows index. unfold columnValuesAt.
  rewrite <- (length_map (fun row : list string => nth_error row index) sampleRows).
  rewrite filter_all_length. split.
  - intros Hall row Hin. apply Hall.
    apply (in_map (fun row : list string => nth_error row index)). exact Hin.
  - intros Hall x Hin. apply in_map_iff in Hin as (row & <- & Hrow). auto.
Qed.

(** C8, as stated, fails on its example: the column of [id] is
    ["1","2","3"], which the classifier gives STRING (see C2), so the first
    field is not INTEGER. *)
Lemma detectCSVSchema_people_not_INTEGER :
  detectCSVSchema peopleCSV <>
  Ok [mkField "id" INTEGER REQUIRED; mkField "name" STRING NULLABLE].
Proof. vm_compute. discriminate. Qed.

(** C8, amended.  When [detectCSVSchema] returns, it returns one field for
    each header column, in order, and the mode of the field at a position
    is REQUIRED exactly when every sampled row has a value at that position
    that is present and not empty, and NULLABLE otherwise.  On the text
    [id,name\n1,Alice\n2,Bob\n3,] the fields are [id], STRING and REQUIRED,
    and [name], STRING and NULLABLE. *)
Theorem detectCSVSchema_modes :
  (forall csvContent fields,
     detectCSVSchema csvContent = Ok fields ->
     List.length fields = List.length (headersOf csvContent) /\
     forall index field,
       nth_error fields index = Some field ->
       (field_mode field = REQUIRED <->
        forall row, In row (sampleRowsOf csvContent) ->
                    cellPresent (nth_error row index) = true) /\
       (field_mode field <> REQUIRED -> field_mode field = NULLABLE)) /\
  detectCSVSchema peopleCSV =
  Ok [mkField "id" STRING REQUIRED; mkField "name" STRING NULLABLE].
Proof.
  split; [|reflexivity].
  intros csvContent fields H. rewrite detectCSVSchema_unfold in H.
  destruct (List.length (linesOf csvContent) <? 2)%nat; [discriminate|].
  injection H as <-. unfold mapi. split; [apply mapi_from_length|].
  intros index field Hnth. rewrite mapi_from_nth in Hnth.
  destruct (nth_error (headersOf csvContent) index) as [header|]; [|discriminate].
  simpl in Hnth. injection Hnth as <-. simpl field_mode.
  rewrite <- column_complete.
  destruct (Nat.eqb_spec (List.length (columnValuesAt (sampleRowsOf csvContent) index))
                         (List.length (sampleRowsOf csvContent))) as [E|E].
  - split; [tauto|]. intros Hn. now elim Hn.
  - split; [|reflexivity]. split; [discriminate|]. intros E'. now elim E.
Qed.

Lemma detectCSVSchema_modes_witness :
  detectCSVSchema peopleCSV
  = Ok [mkField "id" STRING REQUIRED; mkField "name" STRING NULLABLE] /\
  (REQUIRED = REQUIRED <->
   forall row, In row (sampleRowsOf peopleCSV) ->
               cellPresent (nth_error row 0) = true) /\
  (NULLABLE = REQUIRED <->
   forall row, In row (sampleRowsOf peopleCSV) ->
               cellPresent (nth_error row 1) = true).
Proof.
  pose proof (proj1 detectCSVSchema_modes peopleCSV _ eq_refl) as [_ H].
  split; [reflexivity|]. split.
  - exact (proj1 (H 0 (mkField "id" STRING REQUIRED) eq_refl)).
  - exact (proj1 (H 1 (mkField "name" STRING NULLABLE) eq_refl)).
Defined.

(** ** Row conversion of CSV text *)

Lemma parseCSV_loop_spec : forall headers dataLines rows,
  parseCSV_loop headers dataLines rows =
  (rows ++ map (fun line => csvRow headers (parseCSVLine line))
               (filter (fitsHeader headers) dataLines))%list.
Proof.
  induction dataLines as [|line rest IH]; intros rows; simpl.
  - now rewrite app_nil_r.
  - unfold fitsHeader at 1.
    destruct (List.length (parseCSVLine line) =? List.length headers)%nat; simpl.
    + rewrite IH, <- app_assoc. reflexivity.
    + apply IH.
Qed.

(** C5.  On a CSV text with a header line and at least one data line,
    [parseCSV] does not fail; it returns, in order, one converted row for
    each data line that has as many values as the header has fields, and
    nothing for the other data lines, so the number of rows is the number
    of data lines minus the number of mismatched ones. *)
Theorem parseCSV_rows : forall csvContent,
  2 <= List.length (linesOf csvContent) ->
  let headers := headersOf csvContent in
  let dataLines := dataLinesOf csvContent in
  exists rows,
    parseCSV csvContent = Ok rows /\
    rows = map (fun line => csvRow headers (parseCSVLine line))
               (filter (fitsHeader headers) dataLines) /\
    List.length rows =
    List.length dataLines
    - List.length (filter (fun line => negb (fitsHeader headers line)) dataLines).
Proof.
  intros csvContent Hlen headers dataLines.
  eexists. split; [|split; [reflexivity|]].
  - unfold parseCSV. fold (linesOf csvContent).
    destruct (Nat.ltb_spec (List.length (linesOf csvContent)) 2) as [Hlt|_]; [lia|].
    rewrite parseCSV_loop_spec. reflexivity.
  - rewrite length_map.
    pose proof (filter_split_length _ (fitsHeader headers) dataLines). lia.
Qed.

Lemma parseCSV_rows_witness :
  exists rows,
    parseCSV raggedCSV = Ok rows /\
    rows = [ [("a", CBool true); ("b", CString "x")];
             [("a", CNumber 2); ("b", CBool true)] ] /\
    List.length rows = 3 - 1.
Proof.
  destruct (parseCSV_rows raggedCSV) as (rows & Hp & Hr & Hl).
  - vm_compute. lia.
  - exists rows. split; [exact Hp|]. split; [rewrite Hr; reflexivity|].
    rewrite Hr. reflexivity.
Defined.

(** ** Row conversion of JSON text *)

Lemma mapM_length : forall A B (f : A -> Result B) l ys,
  mapM f l = Ok ys -> List.length ys = List.length l.
Proof.
  induction l as [|x t IH]; intros ys E; simpl in E.
  - injection E as <-. reflexivity.
  - destruct (f x) as [y|m]; [|discriminate]. simpl in E.
    destruct (mapM f t) as [ys'|m]; [|discriminate]. simpl in E.
    injection E as <-. simpl. f_equal. now apply IH.
Qed.

Lemma mapM_all_ok : forall A B (f : A -> Result B) l,
  (forall x, In x l -> exists y, f x = Ok y) -> exists ys, mapM f l = Ok ys.
Proof.
  induction l as [|x t IH]; intros Hall; simpl; [eauto|].
  destruct (Hall x) as [y Hy]; [now left|]. rewrite Hy. simpl.
  destruct IH as [ys Hys]; [intros z Hz; apply Hall; now right|].
  rewrite Hys. simpl. eauto.
Qed.

Lemma mapM_first_error : forall A B (f : A -> Result B) l m,
  (forall x, In x l -> f x = Err m \/ exists y, f x = Ok y) ->
  (exists x, In x l /\ f x = Err m) ->
  mapM f l = Err m.
Proof.
  induction l as [|x t IH]; intros m Hall (x0 & Hin & Hx0); [destruct Hin|].
  simpl. destruct (Hall x (or_introl eq_refl)) as [E|[y E]]; rewrite E; [reflexivity|].
  simpl. rewrite (IH m); [reflexivity| |].
  - intros z Hz. apply Hall. now right.
  - destruct Hin as [<-|Hin]; [congruence|eauto].
Qed.

Lemma cleanRecord_cases : forall record,
  cleanRecord record = Err "Each record must be an object" \/
  exists row, cleanRecord record = Ok row.
Proof.
  intros record. unfold cleanRecord.
  destruct (negb (typeofObject record) || isNull record); eauto.
Qed.

(** What the code does right on an array: an element that is [null] or not
    of type [object] (a boolean, a number, a string) fails the whole
    conversion, whatever stands before or after it. *)
Lemma parseJSON_rejects_primitive : forall (J : Json) jsonContent elems,
  JSON_parse jsonContent = Ok (JArr elems) ->
  (exists e, In e elems /\ (typeofObject e = false \/ e = JNull)) ->
  parseJSON jsonContent = Err "Invalid JSON format: Each record must be an object".
Proof.
  intros J jsonContent elems Hp (e & Hin & He).
  unfold parseJSON. rewrite Hp. simpl bind.
  rewrite (mapM_first_error _ _ cleanRecord elems "Each record must be an object");
    [reflexivity| |].
  - intros x _. apply cleanRecord_cases.
  - exists e. split; [exact Hin|]. unfold cleanRecord.
    destruct He as [He|He]; [now rewrite He|now subst].
Qed.

(** And an array whose elements are all of type [object] and not [null]
    (objects, and arrays too) gives one row for each element, provided
    [String] returns on every property value. *)
Lemma parseJSON_one_row_each : forall (J : Json) jsonContent elems,
  JSON_parse jsonContent = Ok (JArr elems) ->
  (forall e, In e elems -> typeofObject e = true /\ isNull e = false) ->
  (forall e p, In e elems -> In p (ownProps e) -> stringifies (snd p) = true) ->
  exists rows, parseJSON jsonContent = Ok rows /\
               List.length rows = List.length elems.
Proof.
  intros J jsonContent elems Hp Hall _.
  unfold parseJSON. rewrite Hp. simpl bind.
  destruct (mapM_all_ok _ _ cleanRecord elems) as [rows Hrows].
  - intros e He. destruct (Hall e He) as [Ht Hn]. unfold cleanRecord.
    rewrite Ht, Hn. simpl. eauto.
  - rewrite Hrows. simpl. exists rows. split; [reflexivity|].
    now apply mapM_length in Hrows.
Qed.

(** C4.  The code does not fail on every element that is not an object: an
    array inside the top-level array passes the [typeof] test and becomes a
    row keyed by its indices.  On the document [[[1,2]]] the conversion
    returns one row instead of the error. *)
Theorem parseJSON_array_element_is_a_row : forall (J : Json) jsonContent,
  JSON_parse jsonContent = Ok (JArr [JArr [JNum 1; JNum 2]]) ->
  parseJSON jsonContent = Ok [ [("0", CBool true); ("1", CNumber 2)] ].
Proof.
  intros J jsonContent Hp. unfold parseJSON. rewrite Hp. reflexivity.
Qed.

Lemma parseJSON_array_element_is_a_row_witness :
  @JSON_parse stubJson "[[1,2]]" = Ok (JArr [JArr [JNum 1; JNum 2]]) /\
  @parseJSON stubJson "[[1,2]]" = Ok [ [("0", CBool true); ("1", CNumber 2)] ].
Proof.
  split; [reflexivity|].
  apply (parseJSON_array_element_is_a_row stubJson). reflexivity.
Defined.

Example parseJSON_number_element_fails :
  @parseJSON stubJson "[{},7]" = Err "Invalid JSON format: Each record must be an object".
Proof. reflexivity. Qed.

(** ** The load *)

Section LoadFacts.
Context {World : Type} {W : Warehouse World}.

Lemma slice_from : forall (rows : list Row) i size,
  slice i (i + size) rows = firstn size (skipn i rows).
Proof.
  intros rows i size. unfold slice. now replace (i + size - i) with size by lia.
Qed.

Lemma batch_length : forall (rows : list Row) i size,
  List.length (firstn size (skipn i rows)) = Nat.min size (List.length rows - i).
Proof. intros rows i size. now rewrite length_firstn, length_skipn. Qed.

Lemma fullThenRest_cons : forall size (b : list Row) rest,
  1 <= List.length b <= size ->
  (rest <> [] -> List.length b = size) ->
  fullThenRest size rest ->
  fullThenRest size (b :: rest).
Proof.
  intros size b [|b' rest'] Hb Hfull Hrest; simpl; [exact Hb|].
  split; [apply Hfull; discriminate|exact Hrest].
Qed.

Lemma insertLoop_spec : forall size ds tb (rows : list Row),
  0 < size ->
  forall fuel i n log w,
    List.length rows <= i + fuel ->
    exists log' w',
      insertLoop size ds tb rows fuel i n log w
      = (n + insertedRows log', (log ++ log')%list, w') /\
      List.concat (map batchOf log') = skipn i rows /\
      fullThenRest size (map batchOf log') /\
      forallb isInsert log' = true /\
      InsertRun ds tb w log' w' /\
      (log' = [] <-> List.length rows <= i).
Proof.
  intros size ds tb rows Hsize.
  induction fuel as [|fuel IH]; intros i n log w Hfuel.
  - exists [], w. simpl. rewrite app_nil_r, Nat.add_0_r.
    repeat split; try constructor; try lia.
    symmetry. apply skipn_all2. lia.
  - simpl insertLoop.
    destruct (Nat.ltb_spec i (List.length rows)) as [Hlt|Hge].
    + rewrite slice_from. set (batch := firstn size (skipn i rows)).
      assert (Hlen : List.length batch = Nat.min size (List.length rows - i))
        by apply batch_length.
      assert (Hparts : (batch ++ skipn (i + size) rows)%list = skipn i rows).
      { unfold batch. rewrite (Nat.add_comm i size), <- skipn_skipn.
        apply firstn_skipn. }
      destruct (table_insert ds tb batch w) as [[u|m] w1] eqn:Hins.
      * destruct (IH (i + size) (n + List.length batch)
                     (log ++ [Insert batch true])%list w1)
          as (log' & w' & Hrun & Hcat & Hfull & Hall & Hlog & Hnil); [lia|].
        exists (Insert batch true :: log'), w'.
        rewrite Hrun, <- app_assoc. simpl.
        repeat split; try discriminate; try lia.
        -- f_equal. f_equal. lia.
        -- now rewrite Hcat.
        -- apply fullThenRest_cons; [lia| |exact Hfull].
           intros Hne. destruct log' as [|e l]; [now elim Hne|].
           assert (~ List.length rows <= i + size)
             by (intros Hle; apply Hnil in Hle; discriminate).
           lia.
        -- exact Hall.
        -- eapply run_ok; eauto.
      * destruct (IH (i + size) n (log ++ [Insert batch false])%list w1)
          as (log' & w' & Hrun & Hcat & Hfull & Hall & Hlog & Hnil); [lia|].
        exists (Insert batch false :: log'), w'.
        rewrite Hrun, <- app_assoc. simpl.
        repeat split; try discriminate; try lia.
        -- now rewrite Hcat.
        -- apply fullThenRest_cons; [lia| |exact Hfull].
           intros Hne. destruct log' as [|e l]; [now elim Hne|].
           assert (~ List.length rows <= i + size)
             by (intros Hle; apply Hnil in Hle; discriminate).
           lia.
        -- exact Hall.
        -- eapply run_failed; eauto.
    + exists [], w. simpl. rewrite app_nil_r, Nat.add_0_r.
      repeat split; try constructor; try lia.
      symmetry. apply skipn_all2. lia.
Qed.

Lemma insertedRows_le : forall log,
  insertedRows log <= List.length (List.concat (map batchOf log)).
Proof.
  induction log as [|e log IH]; simpl; [lia|].
  rewrite length_app. destruct e as [| |batch [|]]; simpl; lia.
Qed.

Lemma insertBatches_spec : forall ds tb (rows : list Row) w,
  exists inserts w',
    insertBatches ds tb rows w = (insertedRows inserts, inserts, w') /\
    List.concat (map batchOf inserts) = rows /\
    fullThenRest batchSize (map batchOf inserts) /\
    forallb isInsert inserts = true /\
    InsertRun ds tb w inserts w' /\
    insertedRows inserts <= List.length rows.
Proof.
  intros ds tb rows w. unfold insertBatches.
  destruct (insertLoop_spec batchSize ds tb rows) with
    (fuel := List.length rows) (i := 0) (n := 0) (log := @nil Event) (w := w)
    as (inserts & w' & Hrun & Hcat & Hfull & Hall & Hlog & _);
    [unfold batchSize; lia|lia|].
  exists inserts, w'. simpl in Hrun, Hcat.
  repeat split; try assumption.
  pose proof (insertedRows_le inserts) as Hle. now rewrite Hcat in Hle.
Qed.

Context {J : Json}.

Lemma POST_success : forall request w rows w1,
  hasRequiredFields request = true ->
  parsedRows request = Some (Ok rows) ->
  rows <> [] ->
  table_exists (datasetId request) (tableId request) w = (Ok true, w1) ->
  exists purged w2 inserts w3,
    purge (modeOf request) (datasetId request) (tableId request) w1 = (purged, w2) /\
    POST request w
    = (JsonSuccess (insertedRows inserts) (List.length rows)
                   (datasetId request ++ "." ++ tableId request) (modeOf request),
       (TableExists :: purged ++ inserts)%list, w3) /\
    List.concat (map batchOf inserts) = rows /\
    fullThenRest batchSize (map batchOf inserts) /\
    forallb isInsert inserts = true /\
    InsertRun (datasetId request) (tableId request) w2 inserts w3 /\
    insertedRows inserts <= List.length rows.
Proof.
  intros request w rows w1 Hreq Hparsed Hne Hex.
  destruct (purge (modeOf request) (datasetId request) (tableId request) w1)
    as [purged w2] eqn:Hpurge.
  destruct (insertBatches_spec (datasetId request) (tableId request) rows w2)
    as (inserts & w3 & Hins & Hrest).
  exists purged, w2, inserts, w3. split; [reflexivity|]. split; [|exact Hrest].
  unfold POST. unfold hasRequiredFields in Hreq. apply negb_true_iff in Hreq.
  rewrite Hreq. unfold parsedRows in Hparsed. rewrite Hparsed.
  destruct rows as [|r rs]; [now elim Hne|].
  change (List.length (r :: rs) =? 0)%nat with false. cbv iota.
  rewrite Hex. fold (modeOf request). rewrite Hpurge, Hins. reflexivity.
Qed.
End LoadFacts.

(** C6.  When a load reaches the insert loop (the request is complete, the
    content converts to at least one row, the table exists), the rows are
    cut in order into consecutive batches: every batch but the last has
    exactly 1000 rows, the last between 1 and 1000, and together they are
    the rows.  Every batch is submitted, one after the other, whatever the
    outcome of the batches before it.  The answer is a success whose
    [rowsInserted] is the sum of the sizes of the batches that succeeded
    and whose [totalRows] is the number of rows, so
    [0 <= rowsInserted <= totalRows]. *)
Theorem POST_batches :
  forall (World : Type) (W : Warehouse World) (J : Json) request w rows w1,
    hasRequiredFields request = true ->
    parsedRows request = Some (Ok rows) ->
    rows <> [] ->
    table_exists (datasetId request) (tableId request) w = (Ok true, w1) ->
    exists purged w2 inserts w3,
      purge (modeOf request) (datasetId request) (tableId request) w1 = (purged, w2) /\
      POST request w
      = (JsonSuccess (insertedRows inserts) (List.length rows)
                     (datasetId request ++ "." ++ tableId request) (modeOf request),
         (TableExists :: purged ++ inserts)%list, w3) /\
      batchSize = 1000 /\
      List.concat (map batchOf inserts) = rows /\
      fullThenRest batchSize (map batchOf inserts) /\
      forallb isInsert inserts = true /\
      InsertRun (datasetId request) (tableId request) w2 inserts w3 /\
      0 <= insertedRows inserts <= List.length rows.
Proof.
  intros World W J request w rows w1 Hreq Hparsed Hne Hex.
  destruct (POST_success request w rows w1 Hreq Hparsed Hne Hex)
    as (purged & w2 & inserts & w3 & Hp & Hpost & Hcat & Hfull & Hall & Hrun & Hle).
  exists purged, w2, inserts, w3.
  repeat split; try assumption; try reflexivity. lia.
Qed.

Lemma POST_batches_witness :
  fst (fst (@POST nat flakyWarehouse stubJson bigAppend 0))
  = JsonSuccess 1001 2001 "d.t" "append" /\
  exists rows purged w2 inserts w3,
    parsedRows bigAppend = Some (Ok rows) /\
    @purge nat flakyWarehouse "append" "d" "t" 0 = (purged, w2) /\
    @POST nat flakyWarehouse stubJson bigAppend 0
    = (JsonSuccess (insertedRows inserts) (List.length rows) "d.t" "append",
       (TableExists :: purged ++ inserts)%list, w3) /\
    batchSize = 1000 /\
    List.concat (map batchOf inserts) = rows /\
    fullThenRest batchSize (map batchOf inserts) /\
    forallb isInsert inserts = true /\
    @InsertRun nat flakyWarehouse "d" "t" w2 inserts w3 /\
    0 <= insertedRows inserts <= List.length rows.
Proof.
  split; [vm_compute; reflexivity|].
  assert (Hrows : exists rows, parsedRows bigAppend = Some (Ok rows) /\
                               List.length rows = 2001)
    by (eexists; split; vm_compute; reflexivity).
  destruct Hrows as (rows & Hrows & Hlen). exists rows.
  assert (Hne : rows <> []) by (intros E; rewrite E in Hlen; discriminate Hlen).
  destruct (POST_batches nat flakyWarehouse stubJson bigAppend 0 rows 0
              eq_refl Hrows Hne eq_refl)
    as (purged & w2 & inserts & w3 & H).
  exists purged, w2, inserts, w3. split; [exact Hrows|exact H].
Defined.

(** C7.  In replace mode against an existing table, when the delete-all
    fails the error goes no further: the delete is followed by the insert
    of every batch, and the answer is a success with [totalRows] the number
    of rows and [rowsInserted] at least 0. *)
Theorem POST_replace_purge_failure :
  forall (World : Type) (W : Warehouse World) (J : Json) request w rows w1 m w2,
    hasRequiredFields request = true ->
    mode request = Some "replace" ->
    parsedRows request = Some (Ok rows) ->
    rows <> [] ->
    table_exists (datasetId request) (tableId request) w = (Ok true, w1) ->
    delete_all (datasetId request) (tableId request) w1 = (Err m, w2) ->
    exists inserts w3,
      POST request w
      = (JsonSuccess (insertedRows inserts) (List.length rows)
                     (datasetId request ++ "." ++ tableId request) "replace",
         TableExists :: DeleteAll false :: inserts, w3) /\
      List.concat (map batchOf inserts) = rows /\
      forallb isInsert inserts = true /\
      InsertRun (datasetId request) (tableId request) w2 inserts w3 /\
      0 <= insertedRows inserts.
Proof.
  intros World W J request w rows w1 m w2 Hreq Hmode Hparsed Hne Hex Hdel.
  destruct (POST_success request w rows w1 Hreq Hparsed Hne Hex)
    as (purged & w2' & inserts & w3 & Hp & Hpost & Hcat & Hfull & Hall & Hrun & Hle).
  assert (Hm : modeOf request = "replace") by (unfold modeOf; now rewrite Hmode).
  rewrite Hm in Hp, Hpost. unfold purge in Hp. simpl in Hp. rewrite Hdel in Hp.
  injection Hp as <- <-.
  exists inserts, w3. repeat split; try assumption. lia.
Qed.

Lemma POST_replace_purge_failure_witness :
  @delete_all nat flakyWarehouse "d" "t" 0
  = (Err "DML over a table with a streaming buffer", 0) /\
  exists inserts w3,
    @POST nat flakyWarehouse stubJson smallReplace 0
    = (JsonSuccess (insertedRows inserts) 2 "d.t" "replace",
       TableExists :: DeleteAll false :: inserts, w3) /\
    List.concat (map batchOf inserts)
    = [ [("a", CBool true); ("b", CString "x")];
        [("a", CNumber 2); ("b", CBool true)] ] /\
    forallb isInsert inserts = true /\
    @InsertRun nat flakyWarehouse "d" "t" 0 inserts w3 /\
    0 <= insertedRows inserts.
Proof.
  split; [reflexivity|].
  apply (POST_replace_purge_failure nat flakyWarehouse stubJson smallReplace 0
           [ [("a", CBool true); ("b", CString "x")];
             [("a", CNumber 2); ("b", CBool true)] ]
           0 "DML over a table with a streaming buffer" 0);
    try reflexivity; discriminate.
Defined.

(** * Further properties of the code *)

(** ** The tokenizer *)

Lemma trim_fixed : forall s,
  startsWith isWhiteSpace s = false -> endsWith isWhiteSpace s = false -> trim s = s.
Proof.
  intros s Hs He. unfold trim. rewrite (dropWhile_id _ _ Hs). now apply dropWhileEnd_id.
Qed.

Lemma trim_trimmed : forall s,
  startsWith isWhiteSpace (trim s) = false /\ endsWith isWhiteSpace (trim s) = false.
Proof.
  intros s. unfold trim. split.
  - apply startsWith_dropWhileEnd, startsWith_dropWhile.
  - apply endsWith_dropWhileEnd.
Qed.

Lemma trim_idempotent : forall s, trim (trim s) = trim s.
Proof. intros s. destruct (trim_trimmed s). now apply trim_fixed. Qed.

Lemma append_assoc : forall a b c : string, (a ++ b) ++ c = a ++ (b ++ c).
Proof. induction a as [|x a IH]; intros b c; simpl; [reflexivity|now rewrite IH]. Qed.

Lemma append_empty_r : forall a : string, a ++ EmptyString = a.
Proof. induction a as [|x a IH]; simpl; [reflexivity|now rewrite IH]. Qed.

Lemma append_char : forall (a : string) c t,
  (a ++ String c EmptyString) ++ t = a ++ String c t.
Proof. intros a c t. now rewrite append_assoc. Qed.

(** One step of the loop on a character that is not a double quote. *)
Lemma parseCSVLine_loop_plain : forall c rest current inQuotes result,
  isQuote c = false ->
  parseCSVLine_loop (String c rest) current inQuotes result =
  if isComma c && negb inQuotes
  then parseCSVLine_loop rest EmptyString inQuotes (result ++ [trim current])
  else parseCSVLine_loop rest (current ++ String c EmptyString) inQuotes result.
Proof.
  intros c rest current inQuotes result Hq. unfold isQuote in Hq.
  simpl. rewrite Hq. reflexivity.
Qed.

(** One step of the loop on a double quote that is not the first of an
    escaped pair: the quote state flips and nothing is added. *)
Lemma parseCSVLine_loop_toggle : forall c rest current inQuotes result,
  isQuote c = true ->
  inQuotes && startsWith isQuote rest = false ->
  parseCSVLine_loop (String c rest) current inQuotes result =
  parseCSVLine_loop rest current (negb inQuotes) result.
Proof.
  intros c rest current inQuotes result Hq Hn. unfold isQuote in *.
  simpl. rewrite Hq. destruct rest as [|next rest']; [reflexivity|].
  simpl in Hn. now rewrite Hn.
Qed.

(** One step of the loop on an escaped pair inside a quoted field. *)
Lemma parseCSVLine_loop_escaped : forall c c' rest current result,
  isQuote c = true -> isQuote c' = true ->
  parseCSVLine_loop (String c (String c' rest)) current true result =
  parseCSVLine_loop rest (current ++ String "034" EmptyString) true result.
Proof.
  intros c c' rest current result Hq Hq'. unfold isQuote in *.
  simpl. now rewrite Hq, Hq'.
Qed.

Lemma parseCSVLine_loop_tokens : forall n line current inQuotes result,
  String.length line <= n ->
  exists tokens,
    parseCSVLine_loop line current inQuotes result = (result ++ tokens)%list /\
    tokens <> [] /\ Forall isTrimmed tokens.
Proof.
  induction n as [|n IH]; intros line current inQuotes result Hn.
  - destruct line; [|simpl in Hn; lia].
    exists [trim current]. simpl. repeat split; [discriminate|].
    constructor; [apply trim_idempotent|constructor].
  - destruct line as [|c rest].
    + exists [trim current]. simpl. repeat split; [discriminate|].
      constructor; [apply trim_idempotent|constructor].
    + simpl in Hn. destruct (isQuote c) eqn:Hq.
      * destruct (inQuotes && startsWith isQuote rest) eqn:Hesc.
        -- apply andb_true_iff in Hesc as [-> Hs].
           destruct rest as [|c' rest']; [discriminate|]. simpl in Hs.
           rewrite (parseCSVLine_loop_escaped c c' rest' current result Hq Hs).
           apply IH. simpl in Hn. lia.
        -- rewrite (parseCSVLine_loop_toggle c rest current inQuotes result Hq Hesc).
           apply IH. lia.
      * rewrite (parseCSVLine_loop_plain c rest current inQuotes result Hq).
        destruct (isComma c && negb inQuotes).
        -- destruct (IH rest EmptyString inQuotes (result ++ [trim current])%list)
             as (tokens & Ht & Hne & Hall); [lia|].
           exists (trim current :: tokens). rewrite Ht, <- app_assoc.
           repeat split; [discriminate|].
           constructor; [apply trim_idempotent|exact Hall].
        -- apply IH. lia.
Qed.

(** X1.  The tokenizer always returns at least one field, and no field has
    white space at either end. *)
Theorem parseCSVLine_fields : forall line,
  parseCSVLine line <> [] /\
  forall field, In field (parseCSVLine line) ->
    startsWith isWhiteSpace field = false /\ endsWith isWhiteSpace field = false.
Proof.
  intros line. unfold parseCSVLine.
  destruct (parseCSVLine_loop_tokens (String.length line) line EmptyString false [])
    as (tokens & Ht & Hne & Hall); [lia|].
  rewrite Ht. simpl. split; [exact Hne|].
  intros field Hin. rewrite Forall_forall in Hall. specialize (Hall field Hin).
  unfold isTrimmed in Hall. rewrite <- Hall. apply trim_trimmed.
Qed.

Lemma splitOn_cons : forall sep s, exists l ls, splitOn sep s = l :: ls.
Proof.
  intros sep s. induction s as [|c t (l & ls & E)]; simpl; [eauto|].
  destruct (Ascii.eqb c sep); [eauto|]. rewrite E. eauto.
Qed.

Lemma splitOn_length : forall sep s,
  List.length (splitOn sep s) = 1 + countChars (fun c => Ascii.eqb c sep) s.
Proof.
  intros sep s. induction s as [|c t IH]; simpl; [reflexivity|].
  destruct (Ascii.eqb c sep); simpl; [now rewrite IH|].
  destruct (splitOn_cons sep t) as (l & ls & E). rewrite E in *. simpl in *. exact IH.
Qed.

Lemma parseCSVLine_loop_unquoted : forall line current result,
  countChars isQuote line = 0 ->
  parseCSVLine_loop line current false result =
  match splitOn "," line with
  | l :: ls => (result ++ trim (current ++ l) :: map trim ls)%list
  | [] => result
  end.
Proof.
  induction line as [|c t IH]; intros current result Hq.
  - simpl. now rewrite append_empty_r.
  - simpl in Hq. destruct (isQuote c) eqn:Ec; [discriminate|]. simpl in Hq.
    rewrite (parseCSVLine_loop_plain c t current false result Ec).
    simpl splitOn. unfold isComma. destruct (Ascii.eqb c ",") eqn:Ecomma; simpl andb; cbv iota.
    + rewrite (IH _ _ Hq). destruct (splitOn_cons "," t) as (l & ls & E). rewrite E.
      rewrite append_empty_r, <- app_assoc. reflexivity.
    + rewrite (IH _ _ Hq). destruct (splitOn_cons "," t) as (l & ls & E). rewrite E.
      now rewrite append_char.
Qed.

(** X2.  On a line without a double quote the tokenizer is a split on the
    commas followed by a trim of every piece, so there is one field more
    than there are commas. *)
Theorem parseCSVLine_unquoted : forall line,
  countChars isQuote line = 0 ->
  parseCSVLine line = map trim (splitOn "," line) /\
  List.length (parseCSVLine line) = 1 + countChars isComma line.
Proof.
  intros line Hq.
  assert (E : parseCSVLine line = map trim (splitOn "," line)).
  { unfold parseCSVLine. rewrite (parseCSVLine_loop_unquoted _ _ _ Hq).
    destruct (splitOn_cons "," line) as (l & ls & E). rewrite E. reflexivity. }
  split; [exact E|]. rewrite E, length_map, splitOn_length. reflexivity.
Qed.

Lemma parseCSVLine_unquoted_witness :
  parseCSVLine " a , b c,,d " = map trim (splitOn "," " a , b c,,d ") /\
  List.length (parseCSVLine " a , b c,,d ") = 1 + countChars isComma " a , b c,,d ".
Proof. apply parseCSVLine_unquoted. reflexivity. Defined.

(** Inside a quoted field: the escaped text of [f] up to its closing quote
    adds exactly [f] to the current field and leaves the quoted state. *)
Lemma parseCSVLine_loop_quoted : forall f rest current result,
  startsWith isQuote rest = false ->
  parseCSVLine_loop (escapeQuotes f ++ String "034" rest) current true result =
  parseCSVLine_loop rest (current ++ f) false result.
Proof.
  induction f as [|c f IH]; intros rest current result Hrest.
  - simpl escapeQuotes. simpl append.
    rewrite parseCSVLine_loop_toggle; [now rewrite append_empty_r|reflexivity|].
    simpl. exact Hrest.
  - simpl escapeQuotes. destruct (isQuote c) eqn:Ec.
    + simpl append. rewrite (parseCSVLine_loop_escaped c c _ current result Ec Ec).
      rewrite (IH _ _ _ Hrest), append_char.
      unfold isQuote in Ec. apply Ascii.eqb_eq in Ec. now subst.
    + simpl append. rewrite (parseCSVLine_loop_plain c _ current true result Ec).
      rewrite andb_false_r. rewrite (IH _ _ _ Hrest), append_char. reflexivity.
Qed.

Lemma parseCSVLine_loop_field : forall f rest result,
  startsWith isQuote rest = false ->
  parseCSVLine_loop (quoteField f ++ rest) EmptyString false result =
  parseCSVLine_loop rest f false result.
Proof.
  intros f rest result Hrest. unfold quoteField.
  change (String "034" (escapeQuotes f ++ String "034" EmptyString) ++ rest)
    with (String "034" ((escapeQuotes f ++ String "034" EmptyString) ++ rest)).
  rewrite append_char.
  rewrite parseCSVLine_loop_toggle; [|reflexivity|reflexivity].
  simpl negb. now rewrite (parseCSVLine_loop_quoted f rest EmptyString result Hrest).
Qed.

Lemma parseCSVLine_loop_quoted_fields : forall fields result,
  fields <> [] ->
  parseCSVLine_loop (joinWith "," (map quoteField fields)) EmptyString false result =
  (result ++ map trim fields)%list.
Proof.
  induction fields as [|f fs IH]; intros result Hne; [now elim Hne|].
  destruct fs as [|f' fs'].
  - simpl joinWith. rewrite <- (append_empty_r (quoteField f)).
    rewrite parseCSVLine_loop_field by reflexivity. reflexivity.
  - change (joinWith "," (map quoteField (f :: f' :: fs')))
      with (quoteField f ++ String "," (joinWith "," (map quoteField (f' :: fs')))).
    rewrite parseCSVLine_loop_field by reflexivity.
    rewrite parseCSVLine_loop_plain by reflexivity.
    simpl andb. cbv iota. rewrite IH by discriminate.
    rewrite <- app_assoc. reflexivity.
Qed.

(** X3.  Reading back what was written with quotes: when every field is
    put between double quotes with its own double quotes doubled, and the
    fields are joined with commas, the tokenizer returns the fields, each
    trimmed.  Commas and quotes inside a field are kept; white space at the
    ends of a field is not, quoted or not. *)
Theorem parseCSVLine_quoteField : forall fields,
  fields <> [] ->
  parseCSVLine (joinWith "," (map quoteField fields)) = map trim fields.
Proof.
  intros fields Hne. unfold parseCSVLine.
  now rewrite parseCSVLine_loop_quoted_fields.
Qed.

Lemma parseCSVLine_quoteField_witness :
  parseCSVLine (joinWith "," (map quoteField ["a,b"; " x "; String "034" "q"; ""]))
  = ["a,b"; "x"; String "034" "q"; ""].
Proof.
  exact (parseCSVLine_quoteField ["a,b"; " x "; String "034" "q"; ""]
           ltac:(discriminate)).
Defined.

(** ** The classifier *)

Lemma votes_cons : forall t v vs, votes t (v :: vs) = oneIf (votedFor t v) + votes t vs.
Proof. intros t v vs. unfold votes. simpl. now destruct (votedFor t v). Qed.

Lemma counted_cons : forall v vs, counted (v :: vs) = oneIf (isCounted v) + counted vs.
Proof. intros v vs. unfold counted. simpl. now destruct (isCounted v). Qed.

Lemma votes_permutation : forall t values values',
  Permutation values values' -> votes t values = votes t values'.
Proof.
  intros t values values' H. induction H; rewrite ?votes_cons; lia.
Qed.

Lemma counted_permutation : forall values values',
  Permutation values values' -> counted values = counted values'.
Proof.
  intros values values' H. induction H; rewrite ?counted_cons; lia.
Qed.

(** X4.  The inferred type does not depend on the order of the sampled
    values. *)
Theorem inferColumnType_permutation : forall values values',
  Permutation values values' -> inferColumnType values = inferColumnType values'.
Proof.
  intros values values' H. rewrite !inferColumnType_winner.
  destruct values as [|v vs].
  - apply Permutation_nil in H. now subst.
  - destruct values' as [|v' vs']; [apply Permutation_sym, Permutation_nil in H; discriminate|].
    unfold winner, find. rewrite (counted_permutation _ _ H).
    rewrite (votes_permutation INTEGER _ _ H), (votes_permutation FLOAT _ _ H),
      (votes_permutation BOOLEAN _ _ H), (votes_permutation TIMESTAMP _ _ H),
      (votes_permutation DATE _ _ H).
    reflexivity.
Qed.

Lemma inferColumnType_permutation_witness :
  inferColumnType [JStr "x"; JStr "7"; JStr "8"; JStr "9"]
  = inferColumnType [JStr "7"; JStr "x"; JStr "8"; JStr "9"].
Proof. apply inferColumnType_permutation. apply perm_swap. Defined.

Lemma counted_pos_not_nil : forall values, 0 < counted values -> values <> [].
Proof. intros [|v vs] H; [inversion H|discriminate]. Qed.

Lemma reaches_iff : forall c t, reaches c t = true <-> 7 * t <= 10 * c.
Proof. intros c t. unfold reaches. apply Nat.leb_le. Qed.

Lemma winner_is_unique : forall values t,
  0 < counted values -> t <> STRING ->
  (inferColumnType values = t <-> 7 * counted values <= 10 * votes t values).
Proof.
  intros values t Hpos Ht.
  pose proof (votes_sum values) as Hsum.
  rewrite inferColumnType_winner.
  destruct values as [|v vs]; [inversion Hpos|].
  set (vals := v :: vs) in *. clearbody vals.
  unfold winner, find.
  destruct (Nat.leb_spec (7 * counted vals) (10 * votes INTEGER vals));
  [|destruct (Nat.leb_spec (7 * counted vals) (10 * votes FLOAT vals));
    [|destruct (Nat.leb_spec (7 * counted vals) (10 * votes BOOLEAN vals));
      [|destruct (Nat.leb_spec (7 * counted vals) (10 * votes TIMESTAMP vals));
        [|destruct (Nat.leb_spec (7 * counted vals) (10 * votes DATE vals))]]]];
  (split; [intros <-; first [lia | now elim Ht]|]);
  destruct t; try (now elim Ht); try reflexivity; intros; exfalso; lia.
Qed.

(** X5.  Seventy percent leaves room for one winner only: as soon as one
    value is counted, a type other than STRING is returned exactly when it
    has at least 70% of the votes, whatever the order in which the types
    are tested. *)
Theorem inferColumnType_unique_winner : forall values t,
  0 < counted values -> t <> STRING ->
  (inferColumnType values = t <-> 7 * counted values <= 10 * votes t values).
Proof. intros values t Hpos Ht. now apply winner_is_unique. Qed.

Lemma inferColumnType_unique_winner_witness :
  inferColumnType [JStr "1.5"; JStr "2"; JStr "0.25"; JStr "7.0"] = FLOAT <->
  7 * counted [JStr "1.5"; JStr "2"; JStr "0.25"; JStr "7.0"]
  <= 10 * votes FLOAT [JStr "1.5"; JStr "2"; JStr "0.25"; JStr "7.0"].
Proof.
  apply inferColumnType_unique_winner; [vm_compute; lia|discriminate].
Defined.

Lemma votes_all : forall t values,
  (forall v, In v values -> voteOf v = Some t) ->
  votes t values = List.length values /\ counted values = List.length values.
Proof.
  intros t. induction values as [|v vs IH]; intros Hall; [split; reflexivity|].
  destruct IH as [IH1 IH2]; [intros x Hx; apply Hall; now right|].
  rewrite votes_cons, counted_cons, IH1, IH2.
  unfold votedFor, isCounted. rewrite (Hall v (or_introl eq_refl)).
  simpl. destruct t; simpl; split; reflexivity.
Qed.

(** X6.  A column in which every value gets the same vote is given that
    type, STRING included. *)
Theorem inferColumnType_uniform : forall values t,
  values <> [] ->
  (forall v, In v values -> voteOf v = Some t) ->
  inferColumnType values = t.
Proof.
  intros values t Hne Hall.
  destruct (votes_all t values Hall) as [Hv Hc].
  assert (Hpos : 0 < counted values).
  { rewrite Hc. destruct values; [now elim Hne|simpl; lia]. }
  destruct t; try (apply winner_is_unique; [exact Hpos|discriminate|lia]).
  pose proof (votes_sum values) as Hsum.
  destruct (inferColumnType values) eqn:E; try reflexivity;
    apply winner_is_unique in E; try discriminate; try exact Hpos; lia.
Qed.

Lemma inferColumnType_uniform_witness :
  inferColumnType [JStr "2024-01-01T10:00:00Z"; JStr "2024-02-02 11:11:11"] = TIMESTAMP.
Proof.
  apply inferColumnType_uniform; [discriminate|].
  intros v [<-|[<-|[]]]; reflexivity.
Defined.

(** X7.  A skipped value (empty or ["null"]) has no say as long as another
    value is there: dropping it changes nothing.  Next to no other value it
    does: alone it makes INTEGER where no value makes STRING. *)
Theorem inferColumnType_skipped : forall v values,
  isSkipped v = true -> values <> [] ->
  inferColumnType (v :: values) = inferColumnType values.
Proof.
  intros v values Hs Hne. rewrite !inferColumnType_winner.
  destruct values as [|v' vs]; [now elim Hne|].
  assert (E : voteOf v = None).
  { pose proof (isCounted_isSkipped v) as H. rewrite Hs in H.
    unfold isCounted in H. now destruct (voteOf v). }
  unfold winner, find. rewrite counted_cons, !(votes_cons _ v).
  rewrite isCounted_isSkipped, Hs. unfold votedFor. rewrite E. reflexivity.
Qed.

Lemma inferColumnType_skipped_witness :
  inferColumnType [JStr " NULL "; JStr "3.5"] = inferColumnType [JStr "3.5"] /\
  inferColumnType [JStr " NULL "] = INTEGER /\ inferColumnType [] = STRING.
Proof.
  split; [apply inferColumnType_skipped; [reflexivity|discriminate]|].
  split; reflexivity.
Defined.

(** ** The converter *)

Example convertValue_undefined :
  voteOf JUndefined = Some STRING /\ convertValue JUndefined = CNull.
Proof. split; reflexivity. Qed.

(** X8.  The converter follows the classifier value by value.  For every
    value but [undefined]: a skipped value converts to [null], a boolean
    vote to a boolean, an integer vote to a number, a float vote to the
    float read from the trimmed text, and a timestamp, date or string vote
    to the trimmed text itself. *)
Theorem convertValue_follows_vote : forall value,
  value <> JUndefined ->
  match voteOf value with
  | None => convertValue value = CNull
  | Some BOOLEAN => exists b, convertValue value = CBool b
  | Some INTEGER => exists z, convertValue value = CNumber z
  | Some FLOAT => convertValue value = CFloat (trim (String_ value))
  | Some _ => convertValue value = CString (trim (String_ value))
  end.
Proof.
  intros value Hdef.
  assert (E : convertValue value =
              let strValue := trim (String_ value) in
              if isEmpty strValue || String.eqb (toLowerCase strValue) "null" then CNull
              else if includes ["true"; "yes"; "y"; "1"] (toLowerCase strValue) then CBool true
              else if includes ["false"; "no"; "n"; "0"] (toLowerCase strValue) then CBool false
              else match (if Re.integer strValue then parseInt10 strValue else None) with
                   | Some intValue => CNumber intValue
                   | None => if Re.float strValue then CFloat strValue else CString strValue
                   end).
  { destruct value; try reflexivity. now elim Hdef. }
  rewrite E. clear E. unfold voteOf. cbv zeta.
  destruct (isEmpty _ || _); [reflexivity|].
  rewrite includes_booleanWords.
  destruct (includes ["true"; "yes"; "y"; "1"] _); [simpl; eauto|].
  destruct (includes ["false"; "no"; "n"; "0"] _); [simpl; eauto|].
  simpl orb. cbv iota.
  destruct (Re.integer _) eqn:Hint.
  - destruct (parseInt10_integer _ Hint) as [z Hz]. rewrite Hz. eauto.
  - destruct (Re.float _); [reflexivity|].
    destruct (Re.timestamp _); [reflexivity|].
    destruct (Re.dateIso _ || Re.dateSlash _); reflexivity.
Qed.

Lemma convertValue_follows_vote_witness :
  convertValue (JStr " 2024-05-06 ") = CString (trim (String_ (JStr " 2024-05-06 "))).
Proof.
  exact (convertValue_follows_vote (JStr " 2024-05-06 ") ltac:(discriminate)).
Defined.

Lemma digitsValue_uint : forall d acc,
  digitsValue acc (NilEmpty.string_of_uint d) = uintValue acc d.
Proof. induction d; intros acc; simpl; try reflexivity; apply IHd. Qed.

Lemma uintValue_of_uint_acc : forall d p,
  uintValue (Z.pos p) d = Z.pos (Pos.of_uint_acc d p).
Proof.
  induction d; intros p; cbn [uintValue Pos.of_uint_acc]; try reflexivity;
    rewrite <- IHd; f_equal; lia.
Qed.

Lemma uintValue_of_uint : forall d, uintValue 0 d = Z.of_N (Pos.of_uint d).
Proof.
  induction d; cbn [uintValue Pos.of_uint]; try reflexivity; try exact IHd;
    cbn [Z.of_N]; rewrite <- uintValue_of_uint_acc; reflexivity.
Qed.

Lemma digits_of_uint : forall d, sall isDigit (NilEmpty.string_of_uint d) = true.
Proof. induction d; simpl; try reflexivity; exact IHd. Qed.

Lemma string_of_uint_nonnil : forall d,
  d <> Decimal.Nil ->
  exists c t, NilEmpty.string_of_uint d = String c t /\ isDigit c = true.
Proof. intros [] H; simpl; try (now elim H); eauto. Qed.

Lemma string_of_Z_pos : forall p,
  string_of_Z (Z.pos p) = NilEmpty.string_of_uint (Pos.to_uint p).
Proof.
  intros p. unfold string_of_Z. simpl.
  pose proof (DecimalPos.Unsigned.to_uint_nonnil p) as H.
  unfold NilZero.string_of_uint. now destruct (Pos.to_uint p).
Qed.

Lemma string_of_Z_neg : forall p,
  string_of_Z (Z.neg p) = String "-" (NilEmpty.string_of_uint (Pos.to_uint p)).
Proof.
  intros p. unfold string_of_Z. simpl.
  pose proof (DecimalPos.Unsigned.to_uint_nonnil p) as H.
  unfold NilZero.string_of_uint. now destruct (Pos.to_uint p).
Qed.

Lemma digitsValue_to_uint : forall p,
  digitsValue 0 (NilEmpty.string_of_uint (Pos.to_uint p)) = Z.pos p.
Proof.
  intros p. rewrite digitsValue_uint, uintValue_of_uint.
  now rewrite DecimalPos.Unsigned.of_to.
Qed.

Lemma digits_are_digitOrMinus : forall s,
  sall isDigit s = true -> sall isDigitOrMinus s = true.
Proof.
  induction s as [|x s IH]; [reflexivity|].
  simpl. intros H. apply andb_true_iff in H as [Hx Hs].
  unfold isDigitOrMinus at 1. rewrite Hx. simpl. auto.
Qed.

Lemma digits_end_with_digit : forall c t,
  sall isDigit (String c t) = true -> endsWith isDigit (String c t) = true.
Proof.
  intros c t. revert c. induction t as [|x t IH]; intros c H.
  - simpl in *. now rewrite andb_true_r in H.
  - simpl in H. apply andb_true_iff in H as [_ H]. apply (IH x H).
Qed.

(** [parseInt(String(z), 10)] is [z], and [String(z)] matches [^-?\d+$]. *)
Lemma parseInt10_string_of_Z : forall z,
  parseInt10 (string_of_Z z) = Some z /\ Re.integer (string_of_Z z) = true /\
  sall isDigitOrMinus (string_of_Z z) = true /\ isEmpty (string_of_Z z) = false /\
  endsWith isDigit (string_of_Z z) = true.
Proof.
  intros [|p|p].
  - repeat split; reflexivity.
  - rewrite string_of_Z_pos.
    pose proof (digits_of_uint (Pos.to_uint p)) as Hd.
    pose proof (digitsValue_to_uint p) as Hv.
    destruct (string_of_uint_nonnil _ (DecimalPos.Unsigned.to_uint_nonnil p))
      as (c & t & E & Hc).
    rewrite E in *. destruct (digit_not_sign c Hc) as [Hm Hp].
    split; [|split; [|split; [|split]]].
    + unfold parseInt10. simpl dropWhile. rewrite (digit_not_white c Hc), Hm, Hp, Hc.
      now rewrite Hv.
    + unfold Re.integer, Re.optMinus. rewrite Hm. unfold Re.digits1. now rewrite Hd.
    + now apply digits_are_digitOrMinus.
    + reflexivity.
    + now apply digits_end_with_digit.
  - rewrite string_of_Z_neg.
    pose proof (digits_of_uint (Pos.to_uint p)) as Hd.
    pose proof (digitsValue_to_uint p) as Hv.
    destruct (string_of_uint_nonnil _ (DecimalPos.Unsigned.to_uint_nonnil p))
      as (c & t & E & Hc).
    rewrite E in *.
    split; [|split; [|split; [|split]]].
    + unfold parseInt10. simpl dropWhile.
      cbv iota beta. rewrite Ascii.eqb_refl. cbv iota beta.
      rewrite Hc, Hv. reflexivity.
    + unfold Re.integer, Re.optMinus. cbv iota beta. rewrite Ascii.eqb_refl.
      unfold Re.digits1. now rewrite Hd.
    + change (sall isDigitOrMinus (String "-" (String c t)))
        with (true && sall isDigitOrMinus (String c t)).
      now apply digits_are_digitOrMinus.
    + reflexivity.
    + change (endsWith isDigit (String "-" (String c t)))
        with (endsWith isDigit (String c t)).
      now apply digits_end_with_digit.
Qed.

Lemma digitOrMinus_not_white : forall c, isDigitOrMinus c = true -> isWhiteSpace c = false.
Proof. intro c; each_char c. Qed.

Lemma digitOrMinus_lower_id : forall c, isDigitOrMinus c = true -> toLowerChar c = c.
Proof. intro c; each_char c. Qed.

Lemma endsWith_none : forall (p q : ascii -> bool) s,
  (forall c, q c = true -> p c = false) -> sall q s = true -> endsWith p s = false.
Proof.
  intros p q s Hpq. induction s as [|c t IH]; intros Hq; [reflexivity|].
  simpl in Hq. apply andb_true_iff in Hq as [Hc Ht].
  destruct t as [|c' t']; [simpl; auto|].
  change (endsWith p (String c' t') = false). auto.
Qed.

Lemma startsWith_none : forall (p q : ascii -> bool) s,
  (forall c, q c = true -> p c = false) -> sall q s = true -> startsWith p s = false.
Proof.
  intros p q [|c t] Hpq Hq; [reflexivity|].
  simpl in *. apply andb_true_iff in Hq as [Hc _]. auto.
Qed.

Lemma eqb_other_alphabet : forall q s w,
  sall q s = true -> sall q w = false -> String.eqb s w = false.
Proof.
  intros q s w Hs Hw. apply String.eqb_neq. intros ->. congruence.
Qed.

(** X9.  What [convertValue] makes of the leaves of a parsed JSON
    document that are not strings.  An integer (below [10^21] in absolute
    value, where [String] prints all its digits) comes back as the same
    number, except 0 and 1, which become [false] and [true]; a boolean is
    kept; [null] is kept; an object without an own property named
    [toString] is replaced by the text ["[object Object]"] (with such a
    property [String] throws, and so does [convertValue]). *)
Theorem convertValue_json_leaves :
  (forall z, (Z.abs z < 10 ^ 21)%Z ->
             convertValue (JNum z) =
             if (z =? 0)%Z then CBool false
             else if (z =? 1)%Z then CBool true
             else CNumber z) /\
  (forall b, convertValue (JBool b) = CBool b) /\
  convertValue JNull = CNull /\
  (forall props, stringifies (JObj props) = true ->
                 convertValue (JObj props) = CString "[object Object]").
Proof.
  split; [|split; [intros []; reflexivity|split; [reflexivity|intros; reflexivity]]].
  intros z _.
  destruct (parseInt10_string_of_Z z) as (Hp & Hi & Hall & Hne & _).
  assert (Htrim : trim (string_of_Z z) = string_of_Z z).
  { apply trim_fixed.
    - apply (startsWith_none _ isDigitOrMinus); [apply digitOrMinus_not_white|exact Hall].
    - apply (endsWith_none _ isDigitOrMinus); [apply digitOrMinus_not_white|exact Hall]. }
  assert (Hlow : toLowerCase (string_of_Z z) = string_of_Z z).
  { apply (smap_id_on _ isDigitOrMinus); [apply digitOrMinus_lower_id|exact Hall]. }
  assert (Hword : forall w, sall isDigitOrMinus w = false ->
                            String.eqb (string_of_Z z) w = false).
  { intros w Hw. now apply (eqb_other_alphabet isDigitOrMinus). }
  assert (Hnum : forall k, String.eqb (string_of_Z z) (string_of_Z k) = (z =? k)%Z).
  { intros k. destruct (Z.eqb_spec z k) as [->|Hzk]; [apply String.eqb_refl|].
    apply String.eqb_neq. intros E.
    destruct (parseInt10_string_of_Z k) as (Hk & _). congruence. }
  unfold convertValue. cbv zeta. simpl String_.
  rewrite Htrim, Hlow, Hne, Hi, Hp. unfold includes. simpl existsb.
  rewrite (Hword "null"), (Hword "true"), (Hword "yes"), (Hword "y"),
    (Hword "false"), (Hword "no"), (Hword "n") by reflexivity.
  change "1" with (string_of_Z 1). change "0" with (string_of_Z 0).
  rewrite !Hnum. simpl orb. rewrite !orb_false_r.
  destruct (z =? 1)%Z eqn:E1; [apply Z.eqb_eq in E1; subst; reflexivity|].
  destruct (z =? 0)%Z; reflexivity.
Qed.

(** ** The sanitizer, again *)

(** X10.  The shape of every sanitized name: it is not empty, it is made
    of lower-case letters, digits and underscores, no two underscores
    follow each other and none stands first or last. *)
Theorem sanitizeFieldName_shape : forall name,
  sanitizeFieldName name <> EmptyString /\
  sall isLowWord (sanitizeFieldName name) = true /\
  noDoubleUnderscore (sanitizeFieldName name) = true /\
  startsWith isUnderscore (sanitizeFieldName name) = false /\
  endsWith isUnderscore (sanitizeFieldName name) = false.
Proof.
  intros name.
  destruct (canonical_parts _ (sanitizeFieldName_canonical name))
    as (Hne & Hlow & Hnd & Hs & He).
  repeat split; try assumption.
  intros E. rewrite E in Hne. discriminate.
Qed.

Lemma alnum_lowered : forall c, isAlnum (toLowerChar c) = isAlnum c.
Proof. intro c; each_char c. Qed.

Lemma alnum_replaced : forall c,
  isAlnum (if isWordChar c then c else "_"%char) = isAlnum c.
Proof. intro c; each_char c. Qed.

Lemma white_not_alnum : forall c, isWhiteSpace c = true -> isAlnum c = false.
Proof. intro c; each_char c. Qed.

Lemma underscore_not_alnum : forall c, isUnderscore c = true -> isAlnum c = false.
Proof. intro c; each_char c. Qed.

Lemma lowWord_alnum : forall c,
  isLowWord c = true -> isUnderscore c = false -> isAlnum c = true.
Proof. intro c; each_char c. Qed.

Lemma sany_smap : forall (f : ascii -> ascii) q s,
  (forall c, q (f c) = q c) -> sany q (smap f s) = sany q s.
Proof.
  intros f q s H. induction s as [|c t IH]; simpl; [reflexivity|]. now rewrite H, IH.
Qed.

Lemma sany_dropWhile : forall p q s,
  (forall c, p c = true -> q c = false) -> sany q (dropWhile p s) = sany q s.
Proof.
  intros p q s H. induction s as [|c t IH]; simpl; [reflexivity|].
  destruct (p c) eqn:E; [|reflexivity]. now rewrite IH, (H c E).
Qed.

Lemma sany_dropWhileEnd : forall p q s,
  (forall c, p c = true -> q c = false) -> sany q (dropWhileEnd p s) = sany q s.
Proof.
  intros p q s H. induction s as [|c t IH]; [reflexivity|].
  simpl. destruct (dropWhileEnd p t) as [|c' t'] eqn:E.
  - simpl in IH. rewrite <- IH. destruct (p c) eqn:Ep; simpl.
    + now rewrite (H c Ep).
    + now rewrite orb_false_r.
  - simpl in *. now rewrite IH.
Qed.

Lemma sany_collapse : forall s,
  sany isAlnum (collapseUnderscores s) = sany isAlnum s.
Proof.
  induction s as [|c t IH]; [reflexivity|].
  rewrite collapse_unfold.
  destruct (isUnderscore c && startsWith isUnderscore t) eqn:E; simpl.
  - apply andb_true_iff in E as [Ec _]. now rewrite IH, (underscore_not_alnum c Ec).
  - now rewrite IH.
Qed.

Lemma sany_prefixUnderscore : forall s,
  sany isAlnum (prefixUnderscore s) = sany isAlnum s.
Proof.
  intros [|c t]; [reflexivity|]. unfold prefixUnderscore.
  destruct (isIdentStart c); reflexivity.
Qed.

Lemma sany_sanitizeChain : forall name,
  sany isAlnum (sanitizeChain name) = sany isAlnum name.
Proof.
  intros name. unfold sanitizeChain, stripUnderscores, trim, replaceNonWord, toLowerCase.
  rewrite sany_dropWhileEnd, sany_dropWhile by apply underscore_not_alnum.
  rewrite sany_collapse, sany_prefixUnderscore.
  rewrite sany_smap by apply alnum_replaced.
  rewrite sany_smap by apply alnum_lowered.
  now rewrite sany_dropWhileEnd, sany_dropWhile by apply white_not_alnum.
Qed.

(** X11.  Among the names whose code units are all below U+0100, the
    fallback is taken exactly for those without an ASCII letter or digit:
    such a name gives ['unnamed_field'], and any other name gives the
    non-empty result of the chain of replacements, which still holds a
    letter or a digit.  (A code unit from U+0100 on may lower-case to an
    ASCII letter, as the Kelvin sign U+212A does; such names are outside
    [string] and outside this statement.) *)
Theorem sanitizeFieldName_fallback : forall name,
  (sany isAlnum name = false -> sanitizeFieldName name = "unnamed_field") /\
  (sany isAlnum name = true ->
   sanitizeFieldName name = sanitizeChain name /\
   sany isAlnum (sanitizeFieldName name) = true).
Proof.
  intros name. rewrite sanitizeFieldName_chain.
  pose proof (sany_sanitizeChain name) as Hany.
  destruct (sanitizeChain_shape name) as [E|E].
  - rewrite E in *. simpl in Hany. split; [reflexivity|]. intros H. congruence.
  - destruct (canonical_parts _ E) as (Hne & Hlow & _ & Hs & _).
    assert (Hal : sany isAlnum (sanitizeChain name) = true).
    { destruct (sanitizeChain name) as [|c t]; [discriminate|]. simpl in *.
      apply andb_true_iff in Hlow as [Hc _]. now rewrite (lowWord_alnum c Hc Hs). }
    unfold orElse. rewrite Hne. split; intros H; [congruence|]. now split.
Qed.

(** ** Rows as objects *)

Lemma setProp_keys_in : forall row k v k',
  In k' (rowKeys (setProp row k v)) <-> k' = k \/ In k' (rowKeys row).
Proof.
  unfold rowKeys. induction row as [|[k0 x] rest IH]; intros k v k'; simpl.
  - intuition.
  - destruct (String.eqb_spec k0 k) as [->|Hne]; simpl.
    + intuition.
    + rewrite IH. intuition.
Qed.

Lemma setProp_NoDup : forall row k v,
  NoDup (rowKeys row) -> NoDup (rowKeys (setProp row k v)).
Proof.
  unfold rowKeys. induction row as [|[k0 x] rest IH]; intros k v Hnd; simpl.
  - constructor; [intros []|constructor].
  - inversion Hnd as [|? ? Hnotin Hrest]; subst.
    destruct (String.eqb_spec k0 k) as [->|Hne]; simpl.
    + constructor; assumption.
    + constructor; [|now apply IH].
      intros Hin. apply (setProp_keys_in rest k v k0) in Hin.
      destruct Hin as [->|Hin]; [now elim Hne|contradiction].
Qed.

Lemma setProp_fresh : forall row k v,
  ~ In k (rowKeys row) -> setProp row k v = (row ++ [(k, v)])%list.
Proof.
  unfold rowKeys. induction row as [|[k0 x] rest IH]; intros k v Hnotin; simpl; [reflexivity|].
  simpl in Hnotin. destruct (String.eqb_spec k0 k) as [->|Hne]; [tauto|].
  rewrite IH; [reflexivity|tauto].
Qed.

Lemma lookup_setProp_same : forall row k v, lookupProp (setProp row k v) k = Some v.
Proof.
  unfold lookupProp. induction row as [|[k0 x] rest IH]; intros k v; simpl.
  - now rewrite String.eqb_refl.
  - destruct (String.eqb k0 k) eqn:E; simpl; rewrite E; [reflexivity|apply IH].
Qed.

Lemma lookup_setProp_other : forall row k v k',
  k' <> k -> lookupProp (setProp row k v) k' = lookupProp row k'.
Proof.
  unfold lookupProp. induction row as [|[k0 x] rest IH]; intros k v k' Hne; simpl.
  - destruct (String.eqb_spec k k'); [congruence|reflexivity].
  - destruct (String.eqb_spec k0 k) as [->|Hk]; simpl.
    + destruct (String.eqb_spec k k'); [congruence|reflexivity].
    + destruct (String.eqb k0 k'); [reflexivity|now apply IH].
Qed.

Section SetAll.
  Context {X : Type} (key : X -> string) (value : X -> Converted).

Lemma setAll_app : forall xs ys init,
  setAll key value (xs ++ ys) init = setAll key value ys (setAll key value xs init).
Proof. intros. unfold setAll. apply fold_left_app. Qed.

Lemma setAll_keys : forall xs init,
  NoDup (rowKeys init) ->
  NoDup (rowKeys (setAll key value xs init)) /\
  forall k, In k (rowKeys (setAll key value xs init)) <->
            In k (rowKeys init) \/ In k (map key xs).
Proof.
  induction xs as [|x xs IH]; intros init Hnd; simpl.
  - split; [exact Hnd|]. intuition.
  - destruct (IH (setProp init (key x) (value x)) (setProp_NoDup _ _ _ Hnd)) as [H1 H2].
    split; [exact H1|]. intros k. unfold setAll in *. simpl. rewrite H2.
    rewrite setProp_keys_in. intuition.
Qed.

Lemma setAll_fresh : forall xs init,
  NoDup (rowKeys init ++ map key xs) ->
  setAll key value xs init = (init ++ map (fun x => (key x, value x)) xs)%list.
Proof.
  induction xs as [|x xs IH]; intros init Hnd; simpl.
  - now rewrite app_nil_r.
  - unfold setAll in *. simpl. simpl map in Hnd.
    assert (Hx : ~ In (key x) (rowKeys init)).
    { intros Hin. apply NoDup_remove_2 in Hnd. apply Hnd.
      apply in_or_app. now left. }
    rewrite (setProp_fresh _ _ _ Hx). rewrite IH.
    + now rewrite <- app_assoc.
    + unfold rowKeys in *. rewrite map_app. simpl. rewrite <- app_assoc. simpl.
      apply NoDup_remove_1 in Hnd as Hnd'.
      apply NoDup_remove_2 in Hnd.
      clear IH Hx. revert Hnd Hnd'. generalize (map fst init) (map key xs) (key x).
      intros l1 l2 a Ha Hl.
      apply Permutation_NoDup with (l := a :: l1 ++ l2).
      * apply Permutation_middle.
      * constructor; assumption.
Qed.

Lemma setAll_lookup_other : forall xs init k,
  ~ In k (map key xs) -> lookupProp (setAll key value xs init) k = lookupProp init k.
Proof.
  induction xs as [|x xs IH]; intros init k Hk; [reflexivity|].
  unfold setAll in *. simpl in *. rewrite IH by tauto.
  apply lookup_setProp_other. intros E. apply Hk. now left.
Qed.

Lemma setAll_lookup_last : forall xs x ys init,
  ~ In (key x) (map key ys) ->
  lookupProp (setAll key value (xs ++ x :: ys) init) (key x) = Some (value x).
Proof.
  intros xs x ys init Hk. rewrite setAll_app.
  change (setAll key value (x :: ys) (setAll key value xs init))
    with (setAll key value ys (setProp (setAll key value xs init) (key x) (value x))).
  rewrite setAll_lookup_other by exact Hk. apply lookup_setProp_same.
Qed.
End SetAll.

Lemma csvRow_setAll : forall headers values,
  csvRow headers values =
  setAll (fun hi => sanitizeFieldName (fst hi)) (fun hi => cellValue values (snd hi))
         (indexed headers) [].
Proof.
  intros headers values. unfold csvRow, setAll, indexed.
  generalize (combine headers (seq 0 (List.length headers))) (@nil (string * Converted)).
  induction l as [|[h i] l IH]; intros row; [reflexivity|].
  simpl. rewrite IH. f_equal. unfold setCell, cellValue.
  destruct (nth_error values i) as [v|]; [|reflexivity].
  now destruct (isEmpty (trim v)).
Qed.

Lemma combine_seq_fst : forall (A : Type) (l : list A) n,
  map fst (combine l (seq n (List.length l))) = l.
Proof.
  induction l as [|x l IH]; intros n; simpl; [reflexivity|]. now rewrite IH.
Qed.

Lemma indexed_keys : forall headers,
  map (fun hi : string * nat => sanitizeFieldName (fst hi)) (indexed headers)
  = map sanitizeFieldName headers.
Proof.
  intros headers. unfold indexed.
  rewrite <- (combine_seq_fst _ headers 0) at 3. now rewrite map_map.
Qed.

Lemma csvRow_keys : forall headers values,
  NoDup (rowKeys (csvRow headers values)) /\
  forall k, In k (rowKeys (csvRow headers values)) <->
            In k (map sanitizeFieldName headers).
Proof.
  intros headers values. rewrite csvRow_setAll.
  destruct (setAll_keys (fun hi : string * nat => sanitizeFieldName (fst hi))
                        (fun hi => cellValue values (snd hi))
                        (indexed headers) [] (NoDup_nil _)) as [H1 H2].
  split; [exact H1|]. intros k. rewrite H2, indexed_keys. simpl. intuition.
Qed.

Lemma csvRow_lookup_last : forall hs1 h hs2 values,
  ~ In (sanitizeFieldName h) (map sanitizeFieldName hs2) ->
  lookupProp (csvRow (hs1 ++ h :: hs2) values) (sanitizeFieldName h)
  = Some (cellValue values (List.length hs1)).
Proof.
  intros hs1 h hs2 values Hlast. rewrite csvRow_setAll.
  assert (E : indexed (hs1 ++ h :: hs2) =
              (combine hs1 (seq 0 (List.length hs1)) ++
               (h, List.length hs1)
               :: combine hs2 (seq (S (List.length hs1)) (List.length hs2)))%list).
  { unfold indexed. rewrite length_app. simpl List.length.
    rewrite seq_app. simpl seq.
    assert (Hc : forall (A B : Type) (l1 l2 : list A) (m1 m2 : list B),
               List.length l1 = List.length m1 ->
               combine (l1 ++ l2) (m1 ++ m2) = (combine l1 m1 ++ combine l2 m2)%list).
    { induction l1 as [|x l1 IH]; intros l2 [|y m1] m2 H; simpl in *;
        try discriminate; [reflexivity|].
      f_equal. apply IH. now injection H. }
    rewrite Hc by now rewrite length_seq. reflexivity. }
  rewrite E.
  apply (setAll_lookup_last (fun hi : string * nat => sanitizeFieldName (fst hi))
                            (fun hi => cellValue values (snd hi))
                            _ (h, List.length hs1)).
  simpl. rewrite <- map_map, combine_seq_fst. exact Hlast.
Qed.

(** X12.  A converted CSV row is an object with one property for each
    distinct sanitized header: its keys are the sanitized headers without
    repetition, so it has at most as many properties as there are columns;
    when no two headers sanitize to the same name it has exactly one
    property for each column, and the value under the sanitized header of
    a column is the converted cell of that column. *)
Theorem csvRow_properties : forall headers values,
  NoDup (rowKeys (csvRow headers values)) /\
  (forall k, In k (rowKeys (csvRow headers values)) <->
             In k (map sanitizeFieldName headers)) /\
  List.length (csvRow headers values) <= List.length headers /\
  (NoDup (map sanitizeFieldName headers) ->
   List.length (csvRow headers values) = List.length headers /\
   forall index header,
     nth_error headers index = Some header ->
     lookupProp (csvRow headers values) (sanitizeFieldName header)
     = Some (cellValue values index)).
Proof.
  intros headers values. destruct (csvRow_keys headers values) as [Hnd Hin].
  assert (Hle : List.length (csvRow headers values) <= List.length headers).
  { rewrite <- (length_map sanitizeFieldName headers).
    rewrite <- (length_map fst (csvRow headers values)).
    apply NoDup_incl_length; [exact Hnd|]. intros k Hk. now apply Hin. }
  split; [exact Hnd|]. split; [exact Hin|]. split; [exact Hle|].
  intros Hh. split.
  - apply Nat.le_antisymm; [exact Hle|].
    rewrite <- (length_map sanitizeFieldName headers).
    rewrite <- (length_map fst (csvRow headers values)).
    apply NoDup_incl_length; [exact Hh|]. intros k Hk. now apply Hin.
  - intros index header Hnth.
    destruct (nth_error_split headers index Hnth) as (hs1 & hs2 & -> & <-).
    apply csvRow_lookup_last.
    rewrite map_app in Hh. simpl in Hh. apply NoDup_remove_2 in Hh.
    intros Hin2. apply Hh. apply in_or_app. now right.
Qed.

Lemma combine_append : forall (A B : Type) (l1 l2 : list A) (m1 m2 : list B),
  List.length l1 = List.length m1 ->
  combine (l1 ++ l2) (m1 ++ m2) = (combine l1 m1 ++ combine l2 m2)%list.
Proof.
  induction l1 as [|x l1 IH]; intros l2 [|y m1] m2 H; simpl in *; try discriminate;
    [reflexivity|].
  f_equal. apply IH. now injection H.
Qed.

Lemma indexed_app : forall hs1 h hs2,
  indexed (hs1 ++ h :: hs2) =
  (combine hs1 (seq 0 (List.length hs1)) ++
   (h, List.length hs1) :: combine hs2 (seq (S (List.length hs1)) (List.length hs2)))%list.
Proof.
  intros hs1 h hs2. unfold indexed. rewrite length_app. simpl List.length.
  rewrite seq_app. simpl seq.
  rewrite combine_append by now rewrite length_seq. reflexivity.
Qed.

(** X13.  When two headers sanitize to the same name, the later column
    wins: the value under a name is the converted cell of the last column
    with that sanitized header. *)
Theorem csvRow_last_column_wins : forall hs1 h hs2 values,
  ~ In (sanitizeFieldName h) (map sanitizeFieldName hs2) ->
  lookupProp (csvRow (hs1 ++ h :: hs2) values) (sanitizeFieldName h)
  = Some (cellValue values (List.length hs1)).
Proof.
  intros hs1 h hs2 values Hlast. rewrite csvRow_setAll, indexed_app.
  apply (setAll_lookup_last (fun hi : string * nat => sanitizeFieldName (fst hi))
                            (fun hi => cellValue values (snd hi))
                            _ (h, List.length hs1)).
  simpl. rewrite <- map_map, combine_seq_fst. exact Hlast.
Qed.

Lemma csvRow_last_column_wins_witness :
  lookupProp (csvRow (["First Name"] ++ "first_name" :: ["age"]) ["Ann"; "Bob"; "41"])
             (sanitizeFieldName "first_name")
  = Some (cellValue ["Ann"; "Bob"; "41"] 1) /\
  csvRow ["First Name"; "first_name"; "age"] ["Ann"; "Bob"; "41"]
  = [("first_name", CString "Bob"); ("age", CNumber 41)].
Proof.
  split; [|reflexivity].
  apply csvRow_last_column_wins. simpl. intros [H|[]]. discriminate H.
Defined.

(** ** The two readers of CSV text *)

Lemma splitLines_splitOn : forall s, splitLines s = splitOn "010" s.
Proof.
  induction s as [|c t IH]; simpl; [reflexivity|]. now rewrite IH.
Qed.

Lemma linesOf_length : forall csvContent,
  List.length (linesOf csvContent) = 1 + countChars isNewline (trim csvContent).
Proof.
  intros csvContent. unfold linesOf. rewrite splitLines_splitOn. apply splitOn_length.
Qed.

Lemma parseCSV_unfold : forall csvContent,
  parseCSV csvContent =
  if (List.length (linesOf csvContent) <? 2)%nat then Err tooShort
  else Ok (map (fun line => csvRow (headersOf csvContent) (parseCSVLine line))
               (filter (fitsHeader (headersOf csvContent)) (dataLinesOf csvContent))).
Proof.
  intros csvContent. unfold parseCSV. fold (linesOf csvContent).
  destruct (List.length (linesOf csvContent) <? 2)%nat; [reflexivity|].
  now rewrite parseCSV_loop_spec.
Qed.

(** X14.  Schema detection and row conversion accept the same CSV texts:
    both throw the same error when the trimmed text has no line feed (a
    header alone, with or without blank lines around it), and both return
    otherwise. *)
Theorem csv_readers_agree : forall csvContent,
  (countChars isNewline (trim csvContent) = 0 ->
   detectCSVSchema csvContent = Err tooShort /\ parseCSV csvContent = Err tooShort) /\
  (countChars isNewline (trim csvContent) <> 0 ->
   (exists fields, detectCSVSchema csvContent = Ok fields) /\
   (exists rows, parseCSV csvContent = Ok rows)).
Proof.
  intros csvContent. rewrite detectCSVSchema_unfold, parseCSV_unfold.
  pose proof (linesOf_length csvContent) as Hlen.
  destruct (Nat.ltb_spec (List.length (linesOf csvContent)) 2) as [Hlt|Hge].
  - split; [intros _; split; reflexivity|]. intros Hn. lia.
  - split; [intros Hz; lia|]. intros _. split; eexists; reflexivity.
Qed.

Lemma mapi_from_names : forall (g : string -> nat -> FieldType) (m : string -> nat -> FieldMode)
                               headers i,
  map field_name
      (mapi_from i (fun header index =>
                      mkField (sanitizeFieldName header) (g header index) (m header index))
                 headers)
  = map sanitizeFieldName headers.
Proof.
  induction headers as [|h hs IH]; intros i; simpl; [reflexivity|]. now rewrite IH.
Qed.

(** X15.  The names of the detected schema are the keys of the converted
    rows: on a CSV text that both readers accept, the schema names are the
    sanitized headers in column order, and every converted row has exactly
    those names as keys. *)
Theorem schema_names_are_row_keys : forall csvContent fields rows,
  detectCSVSchema csvContent = Ok fields ->
  parseCSV csvContent = Ok rows ->
  map field_name fields = map sanitizeFieldName (headersOf csvContent) /\
  forall row, In row rows ->
    NoDup (rowKeys row) /\
    forall k, In k (rowKeys row) <-> In k (map field_name fields).
Proof.
  intros csvContent fields rows Hs Hr.
  rewrite detectCSVSchema_unfold in Hs. rewrite parseCSV_unfold in Hr.
  destruct (List.length (linesOf csvContent) <? 2)%nat; [discriminate|].
  injection Hs as <-. injection Hr as <-.
  assert (Hnames : map field_name
                     (mapi (fun header index =>
                              mkField (sanitizeFieldName header)
                                (inferColumnType
                                   (map jsOfCell (columnValuesAt (sampleRowsOf csvContent) index)))
                                (if (List.length (columnValuesAt (sampleRowsOf csvContent) index)
                                     =? List.length (sampleRowsOf csvContent))%nat
                                 then REQUIRED else NULLABLE))
                           (headersOf csvContent))
                   = map sanitizeFieldName (headersOf csvContent)).
  { unfold mapi.
    apply (mapi_from_names
             (fun _ index => inferColumnType
                (map jsOfCell (columnValuesAt (sampleRowsOf csvContent) index)))
             (fun _ index => if (List.length (columnValuesAt (sampleRowsOf csvContent) index)
                                 =? List.length (sampleRowsOf csvContent))%nat
                             then REQUIRED else NULLABLE)). }
  split; [exact Hnames|].
  intros row Hin. apply in_map_iff in Hin as (line & <- & _).
  rewrite Hnames. apply csvRow_keys.
Qed.

Lemma schema_names_are_row_keys_witness :
  map field_name [mkField "id" STRING REQUIRED; mkField "name" STRING NULLABLE]
  = map sanitizeFieldName (headersOf peopleCSV) /\
  forall row,
    In row [ [("id", CBool true); ("name", CString "Alice")];
             [("id", CNumber 2); ("name", CString "Bob")];
             [("id", CNumber 3); ("name", CNull)] ] ->
    NoDup (rowKeys row) /\
    forall k, In k (rowKeys row) <->
              In k (map field_name [mkField "id" STRING REQUIRED;
                                    mkField "name" STRING NULLABLE]).
Proof.
  apply (schema_names_are_row_keys peopleCSV); reflexivity.
Defined.

Lemma lines_prefix : forall (l : list string),
  (List.length l <? 2)%nat = (List.length (firstn 11 l) <? 2)%nat /\
  hd EmptyString l = hd EmptyString (firstn 11 l) /\
  slice 1 (Nat.min 11 (List.length l)) l = skipn 1 (firstn 11 l).
Proof.
  intros l. split; [|split].
  - rewrite length_firstn.
    destruct (Nat.ltb_spec (List.length l) 2), (Nat.ltb_spec (Nat.min 11 (List.length l)) 2);
      try reflexivity; lia.
  - now destruct l.
  - unfold slice. destruct l as [|x l]; [reflexivity|].
    change (firstn 11 (x :: l)) with (x :: firstn 10 l).
    change (skipn 1 (x :: firstn 10 l)) with (firstn 10 l).
    change (skipn 1 (x :: l)) with l.
    change (List.length (x :: l)) with (S (List.length l)).
    destruct (Nat.le_gt_cases 10 (List.length l)) as [Hge|Hlt].
    + now replace (Nat.min 11 (S (List.length l)) - 1) with 10 by lia.
    + replace (Nat.min 11 (S (List.length l)) - 1) with (List.length l) by lia.
      rewrite firstn_all. symmetry. apply firstn_all2. lia.
Qed.

(** X16.  Schema detection reads the header and at most ten more lines:
    two CSV texts with the same first eleven lines (after the trim) get the
    same answer, whatever comes after. *)
Theorem detectCSVSchema_first_lines : forall a b,
  firstn 11 (linesOf a) = firstn 11 (linesOf b) ->
  detectCSVSchema a = detectCSVSchema b /\
  List.length (sampleRowsOf a) <= 10.
Proof.
  intros a b H.
  destruct (lines_prefix (linesOf a)) as (Ha1 & Ha2 & Ha3).
  destruct (lines_prefix (linesOf b)) as (Hb1 & Hb2 & Hb3).
  split.
  - rewrite !detectCSVSchema_unfold. unfold sampleRowsOf, headersOf.
    rewrite Ha1, Ha2, Ha3, Hb1, Hb2, Hb3, H. reflexivity.
  - unfold sampleRowsOf. rewrite length_map, Ha3, length_skipn, length_firstn. lia.
Qed.

Lemma detectCSVSchema_first_lines_witness :
  detectCSVSchema elevenLines = detectCSVSchema twelveLines /\
  List.length (sampleRowsOf elevenLines) <= 10.
Proof. apply detectCSVSchema_first_lines. vm_compute. reflexivity. Defined.

(** ** Row conversion of JSON text, again *)

Lemma cleanRecord_setAll : forall record,
  typeofObject record = true -> isNull record = false ->
  cleanRecord record =
  Ok (setAll sanitizeFieldName (fun key => convertValue (getProp record key))
             (keysOf record) []).
Proof.
  intros record Ht Hn. unfold cleanRecord. now rewrite Ht, Hn.
Qed.

(** X17.  A document that is a single object is converted like the array
    holding that object alone; when [String] returns on every property
    value (none is, or holds in an array, an object with an own [toString]
    property), the result is exactly one row, whose keys are the sanitized
    keys of the object without repetition. *)
Theorem parseJSON_single_object : forall (J : Json) text text' props,
  JSON_parse text = Ok (JObj props) ->
  JSON_parse text' = Ok (JArr [JObj props]) ->
  (forall p, In p props -> stringifies (snd p) = true) ->
  parseJSON text = parseJSON text' /\
  exists row,
    parseJSON text = Ok [row] /\
    NoDup (rowKeys row) /\
    forall k, In k (rowKeys row) <-> In k (map sanitizeFieldName (map fst props)).
Proof.
  intros J text text' props H H' _.
  unfold parseJSON. rewrite H, H'.
  cbn [bind isArray typeofObject isNull andb negb mapM].
  rewrite (cleanRecord_setAll (JObj props) eq_refl eq_refl).
  cbn [bind invalidJSON].
  split; [reflexivity|]. eexists. split; [reflexivity|].
  destruct (setAll_keys sanitizeFieldName
                        (fun key => convertValue (getProp (JObj props) key))
                        (keysOf (JObj props)) [] (NoDup_nil _)) as [H1 H2].
  split; [exact H1|]. intros k. rewrite H2. simpl. unfold keysOf. simpl. intuition.
Qed.

Lemma parseJSON_single_object_witness :
  @parseJSON orderJson orderText = @parseJSON orderJson orderArrayText /\
  exists row,
    @parseJSON orderJson orderText = Ok [row] /\
    NoDup (rowKeys row) /\
    forall k, In k (rowKeys row) <->
              In k (map sanitizeFieldName (map fst [("Order Id", JNum 7)])).
Proof.
  apply (parseJSON_single_object orderJson orderText orderArrayText
           [("Order Id", JNum 7)]); try reflexivity.
  intros p [<-|[]]. reflexivity.
Defined.

Example parseJSON_order :
  @parseJSON orderJson orderText = Ok [ [("order_id", CNumber 7)] ].
Proof. reflexivity. Qed.

(** ** The load, again *)

Section LoadMore.
Context {World : Type} {W : Warehouse World} {J : Json}.

Lemma purge_log : forall m ds tb (w : World),
  exists b w',
    purge m ds tb w = (if String.eqb m "replace" then [DeleteAll b] else [], w') /\
    (String.eqb m "replace" = false -> w' = w).
Proof.
  intros m ds tb w. unfold purge. destruct (String.eqb m "replace").
  - destruct (delete_all ds tb w) as [[u|e] w'].
    + exists true, w'. split; [reflexivity|discriminate].
    + exists false, w'. split; [reflexivity|discriminate].
  - exists true, w. split; reflexivity.
Qed.

Lemma POST_error_log : forall request (w : World) error status log w',
  POST request w = (JsonError error status, log, w') ->
  (status = 400 \/ status = 404 \/ status = 500) /\
  (log = [] /\ w' = w \/
   log = [TableExists] /\
   exists r, table_exists (datasetId request) (tableId request) w = (r, w') /\
             r <> Ok true).
Proof.
  intros request w error status log w' H. unfold POST in H.
  destruct (isEmpty (datasetId request) || isEmpty (tableId request)
            || isEmpty (content request) || isEmpty (type request)).
  { injection H as <- <- <- <-. split; [now left|now left]. }
  destruct (if String.eqb (type request) "csv" then Some (parseCSV (content request))
            else if String.eqb (type request) "json" then Some (parseJSON (content request))
            else None) as [[rows|m]|].
  - destruct (List.length rows =? 0)%nat.
    { injection H as <- <- <- <-. split; [now left|now left]. }
    destruct (table_exists (datasetId request) (tableId request) w) as [[[|]|m] w1] eqn:Hex.
    + destruct (purge _ _ _ w1) as [purged w2].
      destruct (insertBatches _ _ rows w2) as [[n inserts] w3]. discriminate.
    + injection H as <- <- <- <-. split; [right; now left|right].
      split; [reflexivity|]. eexists. split; [reflexivity|discriminate].
    + injection H as <- <- <- <-. split; [right; now right|right].
      split; [reflexivity|]. eexists. split; [reflexivity|discriminate].
  - injection H as <- <- <- <-. split; [right; now right|now left].
  - injection H as <- <- <- <-. split; [now left|now left].
Qed.
End LoadMore.

(** X18.  An error answer means that nothing was written: its status is
    400, 404 or 500, and the only call the warehouse may have seen is the
    existence check, which then did not answer that the table exists.  No
    delete and no insert was issued. *)
Theorem POST_error_writes_nothing :
  forall (World : Type) (W : Warehouse World) (J : Json) request (w : World)
         error status log w',
    POST request w = (JsonError error status, log, w') ->
    (status = 400 \/ status = 404 \/ status = 500) /\
    (forall e, In e log -> isInsert e = false /\ isDelete e = false) /\
    (log = [] /\ w' = w \/
     log = [TableExists] /\
     exists r, table_exists (datasetId request) (tableId request) w = (r, w') /\
               r <> Ok true).
Proof.
  intros World W J request w error status log w' H.
  destruct (POST_error_log request w error status log w' H) as [Hs Hl].
  split; [exact Hs|]. split; [|exact Hl].
  intros e He. destruct Hl as [[-> _]|[-> _]]; [destruct He|].
  destruct He as [<-|[]]. split; reflexivity.
Qed.

Lemma POST_error_writes_nothing_witness :
  (500 = 400 \/ 500 = 404 \/ 500 = 500) /\
  (forall e, In e (@nil Event) -> isInsert e = false /\ isDelete e = false) /\
  (@nil Event = [] /\ 5 = 5 \/
   @nil Event = [TableExists] /\
   exists r, @table_exists nat goodWarehouse "d" "t" 5 = (r, 5) /\ r <> Ok true).
Proof.
  apply (POST_error_writes_nothing nat goodWarehouse smallJson
           (mkRequest "d" "t" "7" "json" None) 5
           "Failed to insert data: Invalid JSON format: JSON must be an object or array of objects").
  reflexivity.
Defined.

Section LoadModes.
Context {World : Type} {W : Warehouse World} {J : Json}.

Lemma POST_shape : forall request (w : World),
  POST request w =
  let ds := datasetId request in
  let tb := tableId request in
  if negb (hasRequiredFields request)
  then (JsonError "datasetId, tableId, content, and type are required" 400, [], w)
  else
    match parsedRows request with
    | None => (JsonError "Unsupported data type" 400, [], w)
    | Some (Err m) => (JsonError ("Failed to insert data: " ++ m) 500, [], w)
    | Some (Ok rows) =>
        if (List.length rows =? 0)%nat
        then (JsonError "No data rows found to insert" 400, [], w)
        else
          match table_exists ds tb w with
          | (Err m, w1) =>
              (JsonError ("Failed to insert data: " ++ m) 500, [TableExists], w1)
          | (Ok false, w1) =>
              (JsonError ("Table " ++ ds ++ "." ++ tb ++ " does not exist") 404,
               [TableExists], w1)
          | (Ok true, w1) =>
              let '(purged, w2) := purge (modeOf request) ds tb w1 in
              let '(totalInserted, inserts, w3) := insertBatches ds tb rows w2 in
              (JsonSuccess totalInserted (List.length rows) (ds ++ "." ++ tb)
                           (modeOf request),
               (TableExists :: purged ++ inserts)%list, w3)
          end
    end.
Proof.
  intros request w. unfold POST, hasRequiredFields, parsedRows, modeOf.
  rewrite negb_involutive. reflexivity.
Qed.

Lemma POST_other_mode : forall request m (w : World),
  m <> "replace" ->
  forall r log w',
    POST (withMode (Some m) request) w = (r, log, w') ->
    exists r0,
      POST (withMode None request) w = (r0, log, w') /\
      forgetMode r0 = forgetMode r /\
      forall e, In e log -> isDelete e = false.
Proof.
  intros request m w Hm r log w'. rewrite !POST_shape.
  unfold hasRequiredFields, parsedRows, modeOf, withMode. simpl.
  destruct (negb _).
  { intros H. injection H as <- <- <-. eexists. repeat split. intros e []. }
  destruct (if String.eqb (type request) "csv" then Some (parseCSV (content request))
            else if String.eqb (type request) "json" then Some (parseJSON (content request))
            else None) as [[rows|e]|].
  2,3: intros H; injection H as <- <- <-; eexists; repeat split; intros e' [].
  destruct (List.length rows =? 0)%nat.
  { intros H. injection H as <- <- <-. eexists. repeat split. intros e []. }
  destruct (table_exists (datasetId request) (tableId request) w) as [[[|]|e] w1].
  2,3: intros H; injection H as <- <- <-; eexists; repeat split;
       intros e' [<-|[]]; reflexivity.
  unfold purge. apply String.eqb_neq in Hm. rewrite Hm. simpl String.eqb. cbv iota.
  destruct (insertBatches_spec (datasetId request) (tableId request) rows w1)
    as (inserts & w3 & Hins & _ & _ & Hall & _).
  rewrite Hins. intros H. injection H as <- <- <-.
  eexists. repeat split.
  intros e [<-|He]; [reflexivity|]. simpl in He.
  rewrite forallb_forall in Hall. specialize (Hall e He). now destruct e.
Qed.

Lemma insertRun_all_fail : forall ds tb (w : World) log w',
  InsertRun ds tb w log w' ->
  (forall batch w0, exists m w1, table_insert ds tb batch w0 = (Err m, w1)) ->
  insertedRows log = 0.
Proof.
  intros ds tb w log w' Hrun Hdead. induction Hrun as [| w batch u w1 log w2 Hins _ _ |]; simpl.
  - reflexivity.
  - destruct (Hdead batch w) as (m & w1' & E). congruence.
  - assumption.
Qed.

Lemma insertRun_all_ok : forall ds tb (w : World) log w',
  InsertRun ds tb w log w' ->
  (forall batch w0, exists u w1, table_insert ds tb batch w0 = (Ok u, w1)) ->
  insertedRows log = List.length (List.concat (map batchOf log)).
Proof.
  intros ds tb w log w' Hrun Hgood.
  induction Hrun as [| | w batch m w1 log w2 Hins _ _]; simpl.
  - reflexivity.
  - rewrite length_app. now f_equal.
  - destruct (Hgood batch w) as (u & w1' & E). congruence.
Qed.

Lemma fullThenRest_count : forall size (batches : list (list Row)),
  0 < size -> fullThenRest size batches ->
  List.length batches = (List.length (List.concat batches) + size - 1) / size.
Proof.
  intros size batches Hsize. induction batches as [|b rest IH]; intros H.
  - simpl. symmetry. apply Nat.div_small. lia.
  - destruct rest as [|b' rest'].
    + simpl in *. rewrite app_nil_r.
      apply (Nat.div_unique _ _ 1 (List.length b - 1)); lia.
    + destruct H as [Hb Hrest]. specialize (IH Hrest).
      change (List.concat (b :: b' :: rest')) with (b ++ List.concat (b' :: rest'))%list.
      rewrite length_app, Hb.
      change (List.length (b :: b' :: rest')) with (S (List.length (b' :: rest'))).
      rewrite IH.
      replace (size + List.length (List.concat (b' :: rest')) + size - 1)
        with (1 * size + (List.length (List.concat (b' :: rest')) + size - 1)) by lia.
      rewrite Nat.div_add_l by lia. reflexivity.
Qed.
End LoadModes.

(** X19.  The mode is not checked: a request with any mode other than
    ['replace'] (['create'], ['append'], ['REPLACE'], anything) is treated
    like a request without a mode, which appends.  The calls made, the
    final state and the answer are the same, the echoed mode apart, and no
    delete is issued. *)
Theorem POST_mode_other_than_replace :
  forall (World : Type) (W : Warehouse World) (J : Json) request m (w : World) r log w',
    m <> "replace" ->
    POST (withMode (Some m) request) w = (r, log, w') ->
    exists r0,
      POST (withMode None request) w = (r0, log, w') /\
      forgetMode r0 = forgetMode r /\
      forall e, In e log -> isDelete e = false.
Proof.
  intros World W J request m w r log w' Hm H.
  exact (POST_other_mode request m w Hm r log w' H).
Qed.

Lemma POST_mode_other_than_replace_witness :
  exists r0,
    @POST nat flakyWarehouse stubJson (withMode None smallReplace) 0
    = (r0, [TableExists;
            Insert [ [("a", CBool true); ("b", CString "x")];
                     [("a", CNumber 2); ("b", CBool true)] ] true], 1) /\
    forgetMode r0 = forgetMode (JsonSuccess 2 2 "d.t" "REPLACE") /\
    forall e, In e [TableExists;
                    Insert [ [("a", CBool true); ("b", CString "x")];
                             [("a", CNumber 2); ("b", CBool true)] ] true] ->
              isDelete e = false.
Proof.
  apply (POST_mode_other_than_replace nat flakyWarehouse stubJson smallReplace "REPLACE" 0).
  - discriminate.
  - reflexivity.
Defined.

(** X20.  The answer is a success even when no row went in: if the
    warehouse refuses every batch, a load that reaches the insert loop
    still answers success, with [rowsInserted] 0; and if it takes every
    batch, [rowsInserted] is [totalRows]. *)
Theorem POST_all_or_nothing :
  forall (World : Type) (W : Warehouse World) (J : Json) request (w : World) rows w1,
    hasRequiredFields request = true ->
    parsedRows request = Some (Ok rows) ->
    rows <> [] ->
    table_exists (datasetId request) (tableId request) w = (Ok true, w1) ->
    ((forall batch w0, exists m w0',
         table_insert (datasetId request) (tableId request) batch w0 = (Err m, w0')) ->
     exists log w3,
       POST request w
       = (JsonSuccess 0 (List.length rows)
                      (datasetId request ++ "." ++ tableId request) (modeOf request),
          log, w3)) /\
    ((forall batch w0, exists u w0',
         table_insert (datasetId request) (tableId request) batch w0 = (Ok u, w0')) ->
     exists log w3,
       POST request w
       = (JsonSuccess (List.length rows) (List.length rows)
                      (datasetId request ++ "." ++ tableId request) (modeOf request),
          log, w3)).
Proof.
  intros World W J request w rows w1 Hreq Hparsed Hne Hex.
  destruct (POST_success request w rows w1 Hreq Hparsed Hne Hex)
    as (purged & w2 & inserts & w3 & Hp & Hpost & Hcat & Hfull & Hall & Hrun & Hle).
  split; intros Hins.
  - rewrite (insertRun_all_fail _ _ _ _ _ Hrun Hins) in Hpost. eauto.
  - rewrite (insertRun_all_ok _ _ _ _ _ Hrun Hins), Hcat in Hpost. eauto.
Qed.

Lemma POST_all_or_nothing_witness :
  (exists log w3,
     @POST nat deadWarehouse stubJson smallReplace 0
     = (JsonSuccess 0 2 "d.t" "replace", log, w3)) /\
  (exists log w3,
     @POST nat goodWarehouse stubJson smallReplace 0
     = (JsonSuccess 2 2 "d.t" "replace", log, w3)).
Proof.
  split.
  - apply (proj1 (POST_all_or_nothing nat deadWarehouse stubJson smallReplace 0
                    [ [("a", CBool true); ("b", CString "x")];
                      [("a", CNumber 2); ("b", CBool true)] ] 1
                    eq_refl eq_refl ltac:(discriminate) eq_refl)).
    intros batch w0. eexists. eexists. reflexivity.
  - apply (proj2 (POST_all_or_nothing nat goodWarehouse stubJson smallReplace 0
                    [ [("a", CBool true); ("b", CString "x")];
                      [("a", CNumber 2); ("b", CBool true)] ] 1
                    eq_refl eq_refl ltac:(discriminate) eq_refl)).
    intros batch w0. eexists. eexists. reflexivity.
Defined.

(** X21.  The calls of a successful load: one existence check, then one
    delete exactly when the mode is ['replace'], then one insert for every
    started thousand of rows, that is [ceil(totalRows / 1000)] inserts. *)
Theorem POST_call_count :
  forall (World : Type) (W : Warehouse World) (J : Json) request (w : World)
         n total table m log w',
    POST request w = (JsonSuccess n total table m, log, w') ->
    exists purged inserts,
      log = (TableExists :: purged ++ inserts)%list /\
      List.length purged = (if String.eqb (modeOf request) "replace" then 1 else 0) /\
      forallb isDelete purged = true /\
      forallb isInsert inserts = true /\
      List.length inserts = (total + 999) / 1000.
Proof.
  intros World W J request w n total table m log w' H.
  rewrite POST_shape in H. cbv zeta in H.
  destruct (negb (hasRequiredFields request)); [discriminate|].
  destruct (parsedRows request) as [[rows|e]|]; try discriminate.
  destruct (List.length rows =? 0)%nat; [discriminate|].
  destruct (table_exists (datasetId request) (tableId request) w) as [[[|]|e] w1];
    try discriminate.
  destruct (purge_log (modeOf request) (datasetId request) (tableId request) w1)
    as (b & w2 & Hp & _).
  rewrite Hp in H.
  destruct (insertBatches_spec (datasetId request) (tableId request) rows w2)
    as (inserts & w3 & Hins & Hcat & Hfull & Hall & _).
  rewrite Hins in H. injection H as <- <- <- <- <- <-.
  eexists. exists inserts. split; [reflexivity|].
  split; [now destruct (String.eqb (modeOf request) "replace")|].
  split; [now destruct (String.eqb (modeOf request) "replace")|].
  split; [exact Hall|].
  rewrite <- (length_map batchOf inserts).
  rewrite (fullThenRest_count batchSize _ ltac:(unfold batchSize; lia) Hfull).
  rewrite Hcat. unfold batchSize.
  now replace (List.length rows + 1000 - 1) with (List.length rows + 999) by lia.
Qed.

Lemma POST_call_count_witness :
  exists purged inserts,
    snd (fst (@POST nat flakyWarehouse stubJson bigAppend 0))
    = (TableExists :: purged ++ inserts)%list /\
    List.length purged = (if String.eqb (modeOf bigAppend) "replace" then 1 else 0) /\
    forallb isDelete purged = true /\
    forallb isInsert inserts = true /\
    List.length inserts = (2001 + 999) / 1000.
Proof.
  destruct (@POST nat flakyWarehouse stubJson bigAppend 0) as [[r log] w'] eqn:E.
  assert (Hr : r = JsonSuccess 1001 2001 "d.t" "append").
  { change r with (fst (fst (r, log, w'))). rewrite <- E. vm_compute. reflexivity. }
  subst r. simpl snd. simpl fst.
  exact (POST_call_count nat flakyWarehouse stubJson bigAppend 0 _ _ _ _ _ _ E).
Defined.

(** ** The create route *)

Section CreateFacts.
Import CreateRoute.
Context {World : Type} {C : Catalog World}.

Lemma readProp_ok : forall field key,
  notNullish field -> readProp field key = Ok (getProp field key).
Proof. intros field key [H1 H2]. destruct field; try reflexivity; congruence. Qed.

Lemma validateFields_ok : forall fields,
  validateFields fields = Ok true -> forallb wellFormed fields = true.
Proof.
  induction fields as [|f rest IH]; intros H; [reflexivity|].
  simpl in H. unfold wellFormed at 1. simpl.
  destruct f; simpl in H; try discriminate;
    repeat match type of H with
           | (if negb (truthy ?v) then _ else _) = _ =>
               destruct (truthy v) eqn:?; simpl in H; [|discriminate]
           end; simpl; auto.
Qed.

Lemma validateFields_wellFormed : forall fields,
  Forall notNullish fields ->
  validateFields fields = Ok (forallb wellFormed fields).
Proof.
  induction fields as [|f rest IH]; intros H; [reflexivity|].
  inversion H as [|? ? Hf Hrest]; subst.
  simpl. rewrite !(readProp_ok f _ Hf). simpl. unfold wellFormed at 1.
  destruct (truthy (getProp f "name")); [|reflexivity]. simpl.
  destruct (truthy (getProp f "type")); [|reflexivity]. simpl.
  destruct (truthy (getProp f "mode")); [|reflexivity]. simpl.
  now apply IH.
Qed.

Lemma isPrefixOf_refl_app : forall p s, isPrefixOf p (p ++ s) = true.
Proof.
  induction p as [|a p IH]; intros s; [now destruct s|].
  simpl. now rewrite Ascii.eqb_refl, IH.
Qed.

Lemma isInfixOf_app : forall a needle s, isInfixOf needle (a ++ needle ++ s) = true.
Proof.
  induction a as [|c a IH]; intros needle s.
  - simpl append. destruct (needle ++ s) eqn:E; simpl; rewrite <- E;
      now rewrite isPrefixOf_refl_app.
  - simpl. rewrite IH. apply orb_true_r.
Qed.

Lemma POST_cases : forall request (w : World) r log w',
  POST request w = (r, log, w') ->
  (exists e, r = JsonError e 400 /\ log = [] /\ w' = w) \/
  (exists m, r = JsonError ("Failed to create table: " ++ m) 500 /\
             forall ok, In (TableCreate ok) log ->
               ok = false /\
               exists fields created,
                 schema request = JArr fields /\
                 forallb wellFormed fields = true /\
                 (created = [] \/ created = [DatasetCreate true]) /\
                 log = (DatasetExists :: created ++ [TableExists; TableCreate false])%list) \/
  (r = JsonError ("Table " ++ datasetId request ++ "." ++ tableId request
                  ++ " already exists") 409 /\
   exists created, (created = [] \/ created = [DatasetCreate true]) /\
                   log = (DatasetExists :: created ++ [TableExists])%list) \/
  (exists fields created id,
     schema request = JArr fields /\
     forallb wellFormed fields = true /\
     (created = [] \/ created = [DatasetCreate true]) /\
     log = (DatasetExists :: created ++ [TableExists; TableCreate true])%list /\
     r = JsonSuccess id
           (orElse GOOGLE_CLOUD_PROJECT_ID "computellm-468509" ++ "."
            ++ datasetId request ++ "." ++ tableId request)
           (map toBigQuery fields)).
Proof.
  intros request w r log w' H. unfold POST in H. cbv zeta in H.
  destruct (isEmpty (datasetId request) || isEmpty (tableId request)
            || negb (truthy (schema request)) || negb (isArray (schema request))) eqn:Hreq.
  { injection H as <- <- <-. left. eauto. }
  destruct (schema request) as [| | | | |fields|] eqn:Hschema;
    try (rewrite !orb_true_r in Hreq; discriminate).
  destruct (validateFields fields) as [[|]|m] eqn:Hval.
  2:{ injection H as <- <- <-. left. eauto. }
  2:{ unfold failed in H. injection H as <- <- <-. right. left.
      exists m. split; [reflexivity|]. intros ok []. }
  apply validateFields_ok in Hval.
  assert (Hno : forall (created : list Event) ok,
             (created = [] \/ created = [DatasetCreate true]) ->
             ~ In (TableCreate ok) (DatasetExists :: created ++ [TableExists])%list).
  { intros created ok [-> | ->] Hin; simpl in Hin;
      repeat destruct Hin as [Hin|Hin]; try discriminate; assumption. }
  assert (Hin : forall (created : list Event) ok b,
             (created = [] \/ created = [DatasetCreate true]) ->
             In (TableCreate ok) (DatasetExists :: created ++ [TableExists; TableCreate b])%list ->
             ok = b).
  { intros created ok b [-> | ->] Hi; simpl in Hi;
      repeat destruct Hi as [Hi|Hi]; try discriminate; try (now injection Hi); contradiction. }
  destruct (dataset_exists (datasetId request) w) as [[dsExists|m] w1].
  2:{ unfold failed in H. injection H as <- <- <-. right. left.
      exists m. split; [reflexivity|].
      intros ok [Hi|[]]. discriminate. }
  assert (Hafter : exists (res : Result unit) created w2,
             (if negb dsExists
              then match dataset_create (datasetId request) w1 with
                   | (Err m, w2) => (Err m, [DatasetCreate false], w2)
                   | (Ok _, w2) => (Ok tt, [DatasetCreate true], w2)
                   end
              else (Ok tt, [], w1)) = (res, created, w2) /\
             (res = Ok tt /\ (created = [] \/ created = [DatasetCreate true]) \/
              (exists m, res = Err m) /\ created = [DatasetCreate false])).
  { destruct dsExists; simpl.
    - exists (Ok tt), [], w1. split; [reflexivity|]. left. auto.
    - destruct (dataset_create (datasetId request) w1) as [[u|m] w2].
      + exists (Ok tt), [DatasetCreate true], w2. split; [reflexivity|]. left. auto.
      + exists (Err m), [DatasetCreate false], w2. split; [reflexivity|]. right. eauto. }
  destruct Hafter as (res & created & w2 & Hafter & Hres). rewrite Hafter in H. clear Hafter.
  destruct Hres as [[-> Hcreated]|[[m ->] ->]].
  2:{ unfold failed in H. injection H as <- <- <-. right. left.
      exists m. split; [reflexivity|].
      intros ok Hi. simpl in Hi. repeat destruct Hi as [Hi|Hi]; try discriminate; contradiction. }
  destruct (table_exists (datasetId request) (tableId request) w2) as [[[|]|m] w3].
  - injection H as <- <- <-. right. right. left. split; [reflexivity|]. eauto.
  - destruct (table_create _ _ _ w3) as [[id|m] w4].
    + injection H as <- <- <-. right. right. right.
      exists fields, created, id. repeat split; auto.
    + unfold failed in H. injection H as <- <- <-. right. left.
      exists m. split; [reflexivity|].
      intros ok Hi. split; [now apply (Hin created ok false Hcreated)|].
      exists fields, created. repeat split; auto.
  - unfold failed in H. injection H as <- <- <-. right. left.
    exists m. split; [reflexivity|].
    intros ok Hi. now apply Hno in Hi.
Qed.
End CreateFacts.

(** X22.  The create route answers 400 before it calls the warehouse: a
    400 answer comes with no call and an unchanged world; and for a
    request with both identifiers and a schema that is an array without
    [null] elements, the answer is 400 exactly when some field lacks a
    truthy [name], [type] or [mode]. *)
Theorem createRoute_bad_request :
  forall (World : Type) (C : CreateRoute.Catalog World) request (w : World),
    (forall e log w',
        CreateRoute.POST request w = (CreateRoute.JsonError e 400, log, w') ->
        log = [] /\ w' = w) /\
    (forall fields,
        isEmpty (CreateRoute.datasetId request) = false ->
        isEmpty (CreateRoute.tableId request) = false ->
        CreateRoute.schema request = JArr fields ->
        Forall CreateRoute.notNullish fields ->
        ((exists e, fst (fst (CreateRoute.POST request w)) = CreateRoute.JsonError e 400)
         <-> forallb CreateRoute.wellFormed fields = false)).
Proof.
  intros World C request w. split.
  - intros e log w' H.
    destruct (POST_cases request w _ _ _ H)
      as [(e' & _ & Hl & Hw)|[(m & Hr & _)|[(Hr & _)|(f & c & id & _ & _ & _ & _ & Hr)]]];
      try discriminate. now split.
  - intros fields Hds Htb Hschema Hnn.
    destruct (CreateRoute.POST request w) as [[r log] w'] eqn:H. simpl.
    pose proof H as H0. unfold CreateRoute.POST in H0. cbv zeta in H0.
    rewrite Hds, Htb, Hschema in H0. simpl in H0.
    rewrite (validateFields_wellFormed fields Hnn) in H0.
    destruct (forallb CreateRoute.wellFormed fields).
    + split; [|discriminate]. intros [e ->].
      destruct (POST_cases request w _ _ _ H)
        as [(e' & _ & Hl & Hw)|[(m & Hr & _)|[(Hr & _)|(f & c & id & _ & _ & _ & _ & Hr)]]];
        try discriminate.
      subst log w'. clear H.
      destruct (CreateRoute.dataset_exists (CreateRoute.datasetId request) w) as [[[|]|m] w1];
        simpl in H0; try discriminate.
      * destruct (CreateRoute.table_exists _ _ w1) as [[[|]|m] w3]; try discriminate.
        destruct (CreateRoute.table_create _ _ _ w3) as [[id|m] w4]; discriminate.
      * destruct (CreateRoute.dataset_create _ w1) as [[u|m] w2]; try discriminate.
        destruct (CreateRoute.table_exists _ _ w2) as [[[|]|m] w3]; try discriminate.
        destruct (CreateRoute.table_create _ _ _ w3) as [[id|m] w4]; discriminate.
    + injection H0 as <- <- <-. split; [reflexivity|]. eauto.
Qed.

Lemma createRoute_bad_request_witness :
  (exists e,
     fst (fst (@CreateRoute.POST nat CreateRoute.emptyCatalog
                 (CreateRoute.mkCreate "d" "t"
                    (JArr [JObj [("name", JStr "id"); ("type", JStr "")]])) 0))
     = CreateRoute.JsonError e 400)
  <-> forallb CreateRoute.wellFormed [JObj [("name", JStr "id"); ("type", JStr "")]] = false.
Proof.
  apply (proj2 (createRoute_bad_request nat CreateRoute.emptyCatalog
                  (CreateRoute.mkCreate "d" "t"
                     (JArr [JObj [("name", JStr "id"); ("type", JStr "")]])) 0));
    try reflexivity.
  constructor; [split; discriminate|constructor].
Defined.

(** X23.  A 409 answer means that the table was found and that nothing was
    created in its place: the error text holds ['already exists'] (what
    the page looks for to offer the append mode), the last call is the
    existence check of the table and no table was created. *)
Theorem createRoute_conflict :
  forall (World : Type) (C : CreateRoute.Catalog World) request (w : World) e log w',
    CreateRoute.POST request w = (CreateRoute.JsonError e 409, log, w') ->
    isInfixOf "already exists" e = true /\
    (forall ev, In ev log -> CreateRoute.isCreate ev = false) /\
    exists created,
      (created = [] \/ created = [CreateRoute.DatasetCreate true]) /\
      log = (CreateRoute.DatasetExists :: created ++ [CreateRoute.TableExists])%list.
Proof.
  intros World C request w e log w' H.
  destruct (POST_cases request w _ _ _ H)
    as [(e' & Hr & _)|[(m & Hr & _)|[(Hr & created & Hc & Hl)|(f & c & id & _ & _ & _ & _ & Hr)]]];
    try discriminate.
  injection Hr as ->. split; [|split].
  - match goal with
    | |- isInfixOf _ ?e = true =>
        replace e
          with (("Table " ++ CreateRoute.datasetId request ++ "."
                 ++ CreateRoute.tableId request ++ " ") ++ "already exists" ++ "")
          by (rewrite !append_assoc; reflexivity)
    end.
    apply isInfixOf_app.
  - subst log. intros ev Hin.
    destruct Hc as [-> | ->]; simpl in Hin;
      repeat destruct Hin as [<-|Hin]; try reflexivity; contradiction.
  - eauto.
Qed.

Lemma createRoute_conflict_witness :
  isInfixOf "already exists" "Table d.t already exists" = true /\
  (forall ev, In ev [CreateRoute.DatasetExists; CreateRoute.TableExists] ->
              CreateRoute.isCreate ev = false) /\
  exists created,
    (created = [] \/ created = [CreateRoute.DatasetCreate true]) /\
    [CreateRoute.DatasetExists; CreateRoute.TableExists]
    = (CreateRoute.DatasetExists :: created ++ [CreateRoute.TableExists])%list.
Proof.
  apply (createRoute_conflict nat CreateRoute.fullCatalog
           (CreateRoute.mkCreate "d" "t" CreateRoute.oneField) 0 _ _ 2).
  reflexivity.
Defined.

(** X24.  A table is created last and after every check: when the log
    holds a create call, the schema is an array whose fields all have a
    truthy [name], [type] and [mode], the calls are the dataset check, the
    creation of the dataset if it was missing, the table check and the
    create call, in this order, and the answer is the success, with the
    fields as they were sent, exactly when the create call succeeded. *)
Theorem createRoute_create_is_last :
  forall (World : Type) (C : CreateRoute.Catalog World) request (w : World) r log w' ok,
    CreateRoute.POST request w = (r, log, w') ->
    In (CreateRoute.TableCreate ok) log ->
    exists fields created,
      CreateRoute.schema request = JArr fields /\
      forallb CreateRoute.wellFormed fields = true /\
      (created = [] \/ created = [CreateRoute.DatasetCreate true]) /\
      log = (CreateRoute.DatasetExists :: created
             ++ [CreateRoute.TableExists; CreateRoute.TableCreate ok])%list /\
      if ok
      then exists id,
             r = CreateRoute.JsonSuccess id
                   (orElse CreateRoute.GOOGLE_CLOUD_PROJECT_ID "computellm-468509" ++ "."
                    ++ CreateRoute.datasetId request ++ "." ++ CreateRoute.tableId request)
                   (map CreateRoute.toBigQuery fields)
      else exists m, r = CreateRoute.JsonError ("Failed to create table: " ++ m) 500.
Proof.
  intros World C request w r log w' ok H Hin.
  destruct (POST_cases request w _ _ _ H)
    as [(e' & _ & Hl & _)|[(m & Hr & Hc)|[(Hr & created & Hc & Hl)|
        (fields & created & id & Hs & Hwf & Hc & Hl & Hr)]]].
  - subst log. destruct Hin.
  - destruct (Hc ok Hin) as (-> & fields & created & Hs & Hwf & Hcr & Hl).
    exists fields, created. repeat split; auto. eauto.
  - subst log. exfalso.
    destruct Hc as [-> | ->]; simpl in Hin;
      repeat destruct Hin as [Hin|Hin]; try discriminate; contradiction.
  - assert (ok = true).
    { subst log. destruct Hc as [-> | ->]; simpl in Hin;
        repeat destruct Hin as [Hin|Hin]; try discriminate; try (now injection Hin);
        contradiction. }
    subst ok. exists fields, created. repeat split; auto. eauto.
Qed.

Lemma createRoute_create_is_last_witness :
  exists fields created,
    CreateRoute.oneField = JArr fields /\
    forallb CreateRoute.wellFormed fields = true /\
    (created = [] \/ created = [CreateRoute.DatasetCreate true]) /\
    [CreateRoute.DatasetExists; CreateRoute.DatasetCreate true;
     CreateRoute.TableExists; CreateRoute.TableCreate true]
    = (CreateRoute.DatasetExists :: created
       ++ [CreateRoute.TableExists; CreateRoute.TableCreate true])%list /\
    exists id,
      CreateRoute.JsonSuccess "t" "computellm-468509.d.t"
        [CreateRoute.mkBQ (JStr "id") (JStr "INTEGER") (JStr "REQUIRED") JUndefined]
      = CreateRoute.JsonSuccess id
          (orElse (@CreateRoute.GOOGLE_CLOUD_PROJECT_ID nat CreateRoute.emptyCatalog)
                  "computellm-468509" ++ "." ++ "d" ++ "." ++ "t")
          (map CreateRoute.toBigQuery fields).
Proof.
  apply (createRoute_create_is_last nat CreateRoute.emptyCatalog
           (CreateRoute.mkCreate "d" "t" CreateRoute.oneField) 0 _ _ 4 true).
  - reflexivity.
  - simpl. auto.
Defined.

(** ** The upload form *)

(** X25.  With the accepted types ['.csv'] and ['.json'], a file passes
    [validateFile] exactly when the text after the last dot of its name
    (the whole name if it has no dot) is [csv] or [json] in any case and
    its size is at most the limit; and the type that [processFile] then
    sends on is that extension, so no accepted file is sent as JSON
    without being named so. *)
Theorem upload_accepts : forall maxSizeBytes name size,
  (Upload.validateFile [".csv"; ".json"] maxSizeBytes name size = None <->
   (toLowerCase (Upload.lastPiece name) = "csv" \/
    toLowerCase (Upload.lastPiece name) = "json") /\
   (size <= maxSizeBytes)%N) /\
  (Upload.validateFile [".csv"; ".json"] maxSizeBytes name size = None ->
   Upload.fileType name = toLowerCase (Upload.lastPiece name)).
Proof.
  intros maxSizeBytes name size.
  assert (Hiff : Upload.validateFile [".csv"; ".json"] maxSizeBytes name size = None <->
                 (toLowerCase (Upload.lastPiece name) = "csv" \/
                  toLowerCase (Upload.lastPiece name) = "json") /\
                 (size <= maxSizeBytes)%N).
  { unfold Upload.validateFile, Upload.extensionOf. cbv zeta.
    set (ext := toLowerCase (Upload.lastPiece name)).
    assert (Hinc : includes [".csv"; ".json"] ("." ++ ext) = true <->
                   ext = "csv" \/ ext = "json").
    { unfold includes. simpl. rewrite orb_false_r, orb_true_iff, !String.eqb_eq.
      reflexivity. }
    destruct (includes [".csv"; ".json"] ("." ++ ext)); simpl.
    - destruct (N.ltb_spec maxSizeBytes size).
      + split; [discriminate|]. intros [_ Hle]. lia.
      + split; [|reflexivity]. intros _. split; [now apply Hinc|lia].
    - split; [discriminate|]. intros [Hext _]. apply Hinc in Hext. discriminate. }
  split; [exact Hiff|].
  intros H. apply Hiff in H as [[E|E] _]; unfold Upload.fileType; rewrite E; reflexivity.
Qed.

Example upload_examples :
  Upload.validateFile [".csv"; ".json"] 10485760 "Sales.2024.CSV" 10485760 = None /\
  Upload.validateFile [".csv"; ".json"] 10485760 "json" 1 = None /\
  Upload.validateFile [".csv"; ".json"] 10485760 "notes.txt" 1
  = Some "File type .txt not supported. Please upload .csv or .json files." /\
  Upload.validateFile [".csv"; ".json"] 10485760 "big.csv" 10485761
  = Some "File size too large. Maximum size is 10MB.".
Proof. repeat split; reflexivity. Qed.

Lemma replaceNonWord_word : forall s, sall isWordChar (replaceNonWord s) = true.
Proof.
  induction s as [|c t IH]; [reflexivity|].
  unfold replaceNonWord in *. simpl. rewrite IH.
  destruct (isWordChar c) eqn:E; [now rewrite E|reflexivity].
Qed.

Lemma sall_app_dot : forall a b, sall Upload.notSlashDot (a ++ String "." b) = false.
Proof.
  induction a as [|c a IH]; intros b; simpl; [reflexivity|].
  rewrite IH. apply andb_false_r.
Qed.

Lemma beforeExtension_stem : forall stem ext,
  ext <> EmptyString -> sall Upload.notSlashDot ext = true ->
  Upload.beforeExtension (stem ++ String "." ext) = Some stem.
Proof.
  induction stem as [|c stem IH]; intros ext Hne Hext.
  - simpl. rewrite Hext. destruct ext; [now elim Hne|reflexivity].
  - simpl. rewrite sall_app_dot, andb_false_r. now rewrite IH.
Qed.

(** X26.  The table name proposed for an upload has only letters, digits
    and underscores; and when the file name ends with an extension (a dot
    followed by one or more characters other than a dot and a slash), the
    name is what stands before that dot, with every other character
    replaced by an underscore. *)
Theorem tableNameOf_word : forall name,
  sall isWordChar (Upload.tableNameOf name) = true /\
  forall stem ext,
    name = stem ++ String "." ext ->
    ext <> EmptyString -> sall Upload.notSlashDot ext = true ->
    Upload.tableNameOf name = replaceNonWord stem.
Proof.
  intros name. split; [apply replaceNonWord_word|].
  intros stem ext -> Hne Hext. unfold Upload.tableNameOf, Upload.stripExtension.
  now rewrite beforeExtension_stem.
Qed.

Example tableNameOf_examples :
  Upload.tableNameOf "Sales 2024 (final).v2.csv" = "Sales_2024__final__v2" /\
  Upload.tableNameOf "archive.tar.gz" = "archive_tar" /\
  Upload.tableNameOf ".csv" = "" /\
  Upload.tableNameOf "no extension" = "no_extension".
Proof. repeat split; reflexivity. Qed.

(** ** Two more properties of the inference *)

Lemma sampleRows_not_nil : forall csvContent,
  2 <= List.length (linesOf csvContent) -> sampleRowsOf csvContent <> [].
Proof.
  intros csvContent H. unfold sampleRowsOf.
  destruct (lines_prefix (linesOf csvContent)) as (_ & _ & ->).
  destruct (linesOf csvContent) as [|l0 [|l1 ls]]; simpl in H; try lia.
  discriminate.
Qed.

Lemma filter_none : forall A (p : A -> bool) l,
  (forall x, In x l -> p x = false) -> filter p l = [].
Proof.
  induction l as [|x t IH]; intros H; [reflexivity|].
  simpl. rewrite (H x (or_introl eq_refl)). apply IH. intros y Hy. apply H. now right.
Qed.

(** X27.  A column without any value in the sample (every sampled row has
    an empty cell there, or is too short to have one) is detected as STRING
    and NULLABLE. *)
Theorem detectCSVSchema_empty_column : forall csvContent fields index field,
  detectCSVSchema csvContent = Ok fields ->
  nth_error fields index = Some field ->
  (forall row, In row (sampleRowsOf csvContent) ->
               cellPresent (nth_error row index) = false) ->
  field_type field = STRING /\ field_mode field = NULLABLE.
Proof.
  intros csvContent fields index field H Hnth Hempty.
  rewrite detectCSVSchema_unfold in H.
  destruct (Nat.ltb_spec (List.length (linesOf csvContent)) 2) as [|Hge]; [discriminate|].
  injection H as <-. unfold mapi in Hnth. rewrite mapi_from_nth in Hnth.
  destruct (nth_error (headersOf csvContent) index) as [header|]; [|discriminate].
  simpl in Hnth. injection Hnth as <-. simpl.
  assert (E : columnValuesAt (sampleRowsOf csvContent) index = []).
  { unfold columnValuesAt. apply filter_none.
    intros x Hx. apply in_map_iff in Hx as (row & <- & Hrow). auto. }
  rewrite E. simpl. split; [reflexivity|].
  pose proof (sampleRows_not_nil csvContent Hge) as Hne.
  destruct (sampleRowsOf csvContent); [now elim Hne|reflexivity].
Qed.

Lemma detectCSVSchema_empty_column_witness :
  field_type (mkField "b" STRING NULLABLE) = STRING /\
  field_mode (mkField "b" STRING NULLABLE) = NULLABLE.
Proof.
  apply (detectCSVSchema_empty_column ("a,b" ++ nl ++ "1," ++ nl ++ "2")
           [mkField "a" STRING REQUIRED; mkField "b" STRING NULLABLE] 1).
  - vm_compute. reflexivity.
  - reflexivity.
  - intros row Hin. vm_compute in Hin.
    destruct Hin as [<-|[<-|[]]]; reflexivity.
Defined.

Lemma lower_idempotent : forall c, toLowerChar (toLowerChar c) = toLowerChar c.
Proof. intro c; each_char c. Qed.

Lemma white_lowered : forall c, isWhiteSpace (toLowerChar c) = isWhiteSpace c.
Proof. intro c; each_char c. Qed.

Lemma smap_dropWhile : forall (f : ascii -> ascii) p s,
  (forall c, p (f c) = p c) -> smap f (dropWhile p s) = dropWhile p (smap f s).
Proof.
  intros f p s H. induction s as [|c t IH]; [reflexivity|].
  simpl. rewrite H. destruct (p c); [exact IH|reflexivity].
Qed.

Lemma smap_dropWhileEnd : forall (f : ascii -> ascii) p s,
  (forall c, p (f c) = p c) -> smap f (dropWhileEnd p s) = dropWhileEnd p (smap f s).
Proof.
  intros f p s H. induction s as [|c t IH]; [reflexivity|].
  simpl. rewrite <- IH, H.
  destruct (dropWhileEnd p t); simpl; [now destruct (p c)|reflexivity].
Qed.

Lemma toLowerCase_trim : forall s, toLowerCase (trim s) = trim (toLowerCase s).
Proof.
  intros s. unfold toLowerCase, trim.
  rewrite smap_dropWhileEnd, smap_dropWhile by apply white_lowered. reflexivity.
Qed.

Lemma toLowerCase_idempotent : forall s, toLowerCase (toLowerCase s) = toLowerCase s.
Proof.
  unfold toLowerCase. induction s as [|c t IH]; [reflexivity|].
  simpl. now rewrite lower_idempotent, IH.
Qed.

(** X28.  Headers that differ only by the case of their letters or by
    white space around them get the same field name. *)
Theorem sanitizeFieldName_case_and_space : forall name,
  sanitizeFieldName (toLowerCase name) = sanitizeFieldName name /\
  sanitizeFieldName (trim name) = sanitizeFieldName name.
Proof.
  intros name. unfold sanitizeFieldName. split.
  - now rewrite <- toLowerCase_trim, toLowerCase_idempotent.
  - now rewrite trim_idempotent.
Qed.
